(** * The VLAN relay of [sence/vlan.py]

    A shallow embedding of [VLANServer]: the two dictionaries it keeps
    ([clients], the connection registry, and [vlans], the membership
    directory), its methods [register_client], [unregister_client],
    [broadcast_to_vlan], [handle_client] and the start-up part of [start],
    followed by the properties of the specification that are about them.

    Python statements are written in a small state-and-exception monad, so
    that every definition can be read next to the method it embeds.  One
    handler is run at a time: interleavings of handler threads are not part
    of this development. *)

From stdpp Require Import gmap strings list fin_maps pretty.

Set Warnings "-register-all,-clear-no-such-hyp".

Local Open Scope string_scope.
Local Open Scope list_scope.
Local Open Scope Z_scope.

(** ** Exceptions and results *)

(** The exception classes the server code can meet.  All of them are
    subclasses of [Exception]. *)
Inductive exn :=
| OSError              (* socket failures: bind, listen, recv, send *)
| OverflowError        (* bind() with a port outside 0..65535 *)
| UnicodeDecodeError   (* bytes.decode() on bytes that are not UTF-8 *)
| JSONDecodeError      (* json.loads on text that is not a JSON document *)
| KeyError             (* d[k] on a dict without k *)
| TypeError            (* v[k] on a value that cannot be indexed by a str *)
| UnboundLocalError.   (* reading a local variable that was never assigned *)

Global Instance exn_eq_dec : EqDecision exn.
Proof. solve_decision. Defined.

(** How a statement ends: normally, by raising, or not at all because the
    thread is still waiting inside a blocking [recv]. *)
Inductive result (A : Type) :=
| Ok (a : A)
| Raise (e : exn)
| Blocked.
Arguments Ok {A} a.
Arguments Raise {A} e.
Arguments Blocked {A}.

(** ** The monad *)

Module Py.

(** A statement over a mutable state [S]; the state survives a raise,
    as every mutation made before the exception does in Python. *)
Definition M (S A : Type) : Type := S → S * result A.

Definition ret {S A} (a : A) : M S A := λ s, (s, Ok a).

Definition bind {S A B} (m : M S A) (k : A → M S B) : M S B :=
  λ s, match m s with
       | (s1, Ok a) => k a s1
       | (s1, Raise e) => (s1, Raise e)
       | (s1, Blocked) => (s1, Blocked)
       end.

Definition raise {S A} (e : exn) : M S A := λ s, (s, Raise e).
Definition block {S A} : M S A := λ s, (s, Blocked).
Definition get {S} : M S S := λ s, (s, Ok s).
Definition gets {S A} (f : S → A) : M S A := λ s, (s, Ok (f s)).
Definition modify {S} (f : S → S) : M S unit := λ s, (f s, Ok tt).

(** [try: m  except <classes> as e: h e] *)
Definition try_except {S A} (m : M S A) (classes : exn → bool)
    (h : exn → M S A) : M S A :=
  λ s, match m s with
       | (s1, Raise e) => if classes e then h e s1 else (s1, Raise e)
       | other => other
       end.

(** [try: m  finally: fin].  The [finally] suite runs however [m] ended
    (unless the thread never left [m]); an exception raised by the suite
    replaces the outcome of [m]. *)
Definition try_finally {S A} (m : M S A) (fin : M S unit) : M S A :=
  λ s, match m s with
       | (s1, Blocked) => (s1, Blocked)
       | (s1, r) =>
           match fin s1 with
           | (s2, Ok _) => (s2, r)
           | (s2, Raise e) => (s2, Raise e)
           | (s2, Blocked) => (s2, Blocked)
           end
       end.

(** Running a statement of the server inside a larger state that has the
    server state as a component. *)
Definition lift {S T A} (proj : T → S) (upd : S → T → T) (m : M S A) : M T A :=
  λ t, match m (proj t) with (s1, r) => (upd s1 t, r) end.

(** [for x in xs: body x] *)
Fixpoint for_each {S A} (xs : list A) (body : A → M S unit) : M S unit :=
  match xs with
  | [] => ret tt
  | x :: rest => bind (body x) (λ _, for_each rest body)
  end.

End Py.

Declare Scope py_scope.
Delimit Scope py_scope with py.
Notation "x ← y ; z" := (Py.bind y (λ x, z))
  (at level 20, y at level 100, z at level 200, only parsing) : py_scope.
Notation "x ;; z" := (Py.bind x (λ _, z))
  (at level 100, z at level 200, only parsing, right associativity) : py_scope.
Local Open Scope py_scope.

(** Exception filters of the two [except] clauses of the source. *)
Definition is_Exception (e : exn) : bool := true.
Definition is_JSONDecodeError (e : exn) : bool := bool_decide (e = JSONDecodeError).
Definition is_OSError (e : exn) : bool := bool_decide (e = OSError).

(** ** Data model *)

(** A socket object, named by its file descriptor. *)
Definition sock := nat.

(** JSON documents as [json.loads] returns them.  Objects are kept to
    string members, which is what the registration message carries
    ([client_id] and [vlan_id] are [str] in every signature); application
    messages are opaque to the relay. *)
Inductive json :=
| JNull
| JBool (b : bool)
| JNum (n : Z)
| JStr (s : string)
| JArr (items : list json)
| JObj (members : gmap string string).

(** The log records of the module, one constructor per message of the
    source. *)
Inductive log_msg :=
| LogListening (port : Z)                 (* "服务器启动在 host:port" *)
| LogStartError (e : exn)                 (* "启动服务器时发生错误" *)
| LogTryOtherPort                         (* "尝试使用其他端口..." *)
| LogJoin (client_id vlan_id : string)    (* "客户端 .. 加入 VLAN .." *)
| LogLeave (client_id vlan_id : string)   (* "客户端 .. 离开 VLAN .." *)
| LogSendFailed (client_id : string) (e : exn)  (* "发送消息到客户端 .. 失败" *)
| LogInvalidJson                          (* "无效的JSON数据" *)
| LogHandlerError (e : exn).              (* "处理客户端时发生错误" *)

(** What the server does to the outside world, in order. *)
Inductive event :=
| EvBind (port : Z)                             (* server_socket.bind((host, port)) *)
| EvListen                                      (* server_socket.listen(5) *)
| EvSend (client_id : string) (s : sock) (payload : json)
    (* self.clients[client_id].send(json.dumps(payload).encode()) was called *)
| EvClose (s : sock)                            (* s.close() *)
| EvInfo (m : log_msg)                          (* self.logger.info *)
| EvError (m : log_msg).                        (* self.logger.error *)

(** The state of a [VLANServer] and of the sockets it touches.
    [clients] and [vlans] are the two dictionaries of [__init__];
    [closed] holds the sockets on which [close()] was called, [unreachable]
    the sockets whose peer is gone (a [send] on either raises [OSError]);
    [trace] collects the events. *)
Record world := World {
  clients : gmap string sock;
  vlans : gmap string (gset string);
  closed : gset sock;
  unreachable : gset sock;
  trace : list event
}.

(** [VLANServer.__init__]: both dictionaries start empty. *)
Definition init : world :=
  {| clients := ∅; vlans := ∅; closed := ∅; unreachable := ∅; trace := [] |}.

Definition set_clients (f : gmap string sock → gmap string sock) (w : world) : world :=
  {| clients := f (clients w); vlans := vlans w; closed := closed w;
     unreachable := unreachable w; trace := trace w |}.
Definition set_vlans (f : gmap string (gset string) → gmap string (gset string))
    (w : world) : world :=
  {| clients := clients w; vlans := f (vlans w); closed := closed w;
     unreachable := unreachable w; trace := trace w |}.
Definition set_closed (f : gset sock → gset sock) (w : world) : world :=
  {| clients := clients w; vlans := vlans w; closed := f (closed w);
     unreachable := unreachable w; trace := trace w |}.
Definition emit (e : event) (w : world) : world :=
  {| clients := clients w; vlans := vlans w; closed := closed w;
     unreachable := unreachable w; trace := trace w ++ [e] |}.

(** The members of a group: the set stored under it, or no one when the
    directory has no such key. *)
Definition members (w : world) (vlan_id : string) : gset string :=
  default ∅ (vlans w !! vlan_id).

Definition logger_info (m : log_msg) : Py.M world unit := Py.modify (emit (EvInfo m)).
Definition logger_error (m : log_msg) : Py.M world unit := Py.modify (emit (EvError m)).

(** [s.send(json.dumps(payload).encode())], reached through
    [self.clients[client_id]]. *)
Definition send (client_id : string) (s : sock) (payload : json) : Py.M world unit :=
  Py.modify (emit (EvSend client_id s payload)) ;;
  w ← Py.get;
  if bool_decide (s ∈ closed w ∪ unreachable w) then Py.raise OSError else Py.ret tt.

(** [s.close()] *)
Definition close (s : sock) : Py.M world unit :=
  Py.modify (emit (EvClose s)) ;;
  Py.modify (set_closed (λ c, {[s]} ∪ c)).

(** ** Registry and directory *)

(** [VLANServer.register_client] *)
Definition register_client (client_id vlan_id : string) (client_socket : sock)
    : Py.M world unit :=
  (* self.clients[client_id] = client_socket *)
  Py.modify (set_clients (<[client_id := client_socket]>)) ;;
  (* if vlan_id not in self.vlans: self.vlans[vlan_id] = set() *)
  w ← Py.get;
  (if bool_decide (vlan_id ∈ dom (vlans w)) then Py.ret tt
   else Py.modify (set_vlans (<[vlan_id := ∅]>))) ;;
  (* self.vlans[vlan_id].add(client_id) *)
  w ← Py.get;
  match vlans w !! vlan_id with
  | None => Py.raise KeyError
  | Some group =>
      Py.modify (set_vlans (<[vlan_id := group ∪ {[client_id]}]>)) ;;
      logger_info (LogJoin client_id vlan_id)
  end.

(** [VLANServer.unregister_client] *)
Definition unregister_client (client_id vlan_id : string) : Py.M world unit :=
  (* if client_id in self.clients: del self.clients[client_id] *)
  w ← Py.get;
  (if bool_decide (client_id ∈ dom (clients w))
   then Py.modify (set_clients (delete client_id))
   else Py.ret tt) ;;
  (* if vlan_id in self.vlans and client_id in self.vlans[vlan_id]:
         self.vlans[vlan_id].remove(client_id) *)
  w ← Py.get;
  match vlans w !! vlan_id with
  | Some group =>
      if bool_decide (client_id ∈ group)
      then Py.modify (set_vlans (<[vlan_id := group ∖ {[client_id]}]>))
      else Py.ret tt
  | None => Py.ret tt
  end ;;
  logger_info (LogLeave client_id vlan_id).

(** ** Broadcast *)

(** [VLANServer.broadcast_to_vlan].  The members are visited in the order
    [elements] lists them; Python fixes no order for a set either. *)
Definition broadcast_to_vlan (vlan_id : string) (message : json) (sender_id : string)
    : Py.M world unit :=
  w ← Py.get;
  match vlans w !! vlan_id with
  | None => Py.ret tt                      (* if vlan_id not in self.vlans: return *)
  | Some group =>
      Py.for_each (elements group) (λ client_id,
        w ← Py.get;
        if bool_decide (client_id ≠ sender_id) && bool_decide (client_id ∈ dom (clients w))
        then
          Py.try_except
            (match clients w !! client_id with
             | None => Py.raise KeyError
             | Some s => send client_id s message
             end)
            is_Exception
            (λ e, logger_error (LogSendFailed client_id e))
        else Py.ret tt)
  end.

(** ** The connection handler *)

(** The text one [client_socket.recv(1024).decode()] returns, by what
    [json.loads] makes of it. *)
Inductive text :=
| Empty                  (* '' : the peer has closed the connection *)
| NotJson                (* text that is not empty and not a JSON document *)
| Document (v : json).   (* the text of the JSON document v *)

(** What one [client_socket.recv(1024).decode()] does: it raises ([OSError]
    from [recv], [UnicodeDecodeError] from [decode]) or returns a text. *)
Inductive recv_result :=
| RecvRaises (e : exn)
| RecvText (data : text).

(** The local variables of [handle_client] that its [finally] suite reads,
    unbound until assigned, next to the server the handler works on. *)
Record frame := Frame {
  server : world;
  loc_client_id : option string;
  loc_vlan_id : option string
}.

Definition enter (w : world) : frame :=
  {| server := w; loc_client_id := None; loc_vlan_id := None |}.

Definition with_server (w : world) (f : frame) : frame :=
  {| server := w; loc_client_id := loc_client_id f; loc_vlan_id := loc_vlan_id f |}.

(** A method call on [self]. *)
Definition self {A} (m : Py.M world A) : Py.M frame A :=
  Py.lift server with_server m.

(** Reading a local variable. *)
Definition load (var : frame → option string) : Py.M frame string :=
  λ f, match var f with
       | Some v => (f, Ok v)
       | None => (f, Raise UnboundLocalError)
       end.

Definition store_client_id (v : string) : Py.M frame unit :=
  Py.modify (λ f, {| server := server f; loc_client_id := Some v; loc_vlan_id := loc_vlan_id f |}).
Definition store_vlan_id (v : string) : Py.M frame unit :=
  Py.modify (λ f, {| server := server f; loc_client_id := loc_client_id f; loc_vlan_id := Some v |}).

Definition recv_decode {S} (r : recv_result) : Py.M S text :=
  match r with
  | RecvRaises e => Py.raise e
  | RecvText data => Py.ret data
  end.

(** [not data] *)
Definition is_empty (data : text) : bool :=
  match data with Empty => true | _ => false end.

(** [json.loads(data)] *)
Definition json_loads {S} (data : text) : Py.M S json :=
  match data with
  | Document v => Py.ret v
  | Empty | NotJson => Py.raise JSONDecodeError
  end.

(** [v[key]] for a [str] key. *)
Definition getitem {S} (v : json) (key : string) : Py.M S string :=
  match v with
  | JObj members =>
      match members !! key with
      | Some x => Py.ret x
      | None => Py.raise KeyError
      end
  | _ => Py.raise TypeError
  end.

(** The [while True] loop of [handle_client]; every turn starts with a
    [recv], which waits for ever once the peer sends nothing more.  The
    body yields [true] to go round again and [false] on [break]. *)
Fixpoint relay_loop (client_socket : sock) (inbox : list recv_result) : Py.M frame unit :=
  match inbox with
  | [] => Py.block
  | r :: inbox' =>
      again ← Py.try_except
        (data ← recv_decode r;
         if is_empty data then Py.ret false
         else
           message ← json_loads data;
           vlan_id ← load loc_vlan_id;
           client_id ← load loc_client_id;
           self (broadcast_to_vlan vlan_id message client_id) ;;
           Py.ret true)
        is_JSONDecodeError
        (λ _, self (logger_error LogInvalidJson) ;; Py.ret false);
      if again then relay_loop client_socket inbox' else Py.ret tt
  end.

(** [VLANServer.handle_client]; [inbox] is what the successive [recv]
    calls on [client_socket] give. *)
Definition handle_client (client_socket : sock) (inbox : list recv_result)
    : Py.M frame unit :=
  Py.try_finally
    (Py.try_except
       (match inbox with
        | [] => Py.block
        | r :: inbox' =>
            data ← recv_decode r;
            client_info ← json_loads data;
            c ← getitem client_info "client_id";
            store_client_id c ;;
            v ← getitem client_info "vlan_id";
            store_vlan_id v ;;
            client_id ← load loc_client_id;
            vlan_id ← load loc_vlan_id;
            self (register_client client_id vlan_id client_socket) ;;
            relay_loop client_socket inbox'
        end)
       is_Exception
       (λ e, self (logger_error (LogHandlerError e))))
    (client_id ← load loc_client_id;
     vlan_id ← load loc_vlan_id;
     self (unregister_client client_id vlan_id) ;;
     self (close client_socket)).

(** A handler thread run on the server [w]: the server afterwards and how
    the thread ended. *)
Definition run_handler (client_socket : sock) (inbox : list recv_result) (w : world)
    : world * result unit :=
  let '(f, r) := handle_client client_socket inbox (enter w) in (server f, r).

(** ** Start-up *)

(** What the operating system answers: which ports can be bound, and
    whether [listen] works on a socket bound to a port. *)
Record net := Net {
  port_free : Z → bool;
  listen_ok : Z → bool
}.

(** The listening side of a [VLANServer]: [self.port], the state of
    [self.server_socket], and the events so far. *)
Record listener := Listener {
  port : Z;
  bound_to : option Z;
  listening : bool;
  startup_trace : list event
}.

(** [VLANServer.__init__(host, port)], with its default [port=5000]. *)
Definition default_port : Z := 5000.
Definition new_listener (configured : option Z) : listener :=
  {| port := default default_port configured; bound_to := None;
     listening := false; startup_trace := [] |}.

Definition note (e : event) : Py.M listener unit :=
  Py.modify (λ l, {| port := port l; bound_to := bound_to l; listening := listening l;
                     startup_trace := startup_trace l ++ [e] |}).

(** [self.server_socket.bind((self.host, p))] *)
Definition bind_socket (os : net) (p : Z) : Py.M listener unit :=
  note (EvBind p) ;;
  l ← Py.get;
  if (p <? 0) || (65535 <? p) then Py.raise OverflowError
  else
    match bound_to l with
    | Some _ => Py.raise OSError           (* the socket is bound already *)
    | None =>
        if port_free os p then
          Py.modify (λ l, {| port := port l; bound_to := Some p; listening := listening l;
                             startup_trace := startup_trace l |})
        else Py.raise OSError
    end.

(** [self.server_socket.listen(5)].  [start] calls it only after a [bind]
    that worked; the case of a socket that was never bound is not reached
    by it. *)
Definition listen_socket (os : net) : Py.M listener unit :=
  note EvListen ;;
  l ← Py.get;
  match bound_to l with
  | Some p =>
      if listen_ok os p then
        Py.modify (λ l, {| port := port l; bound_to := bound_to l; listening := true;
                           startup_trace := startup_trace l |})
      else Py.raise OSError
  | None => Py.raise OSError
  end.

(** [VLANServer.start].  The accept loop that ends it never returns; the
    handler threads it spawns are [handle_client] above. *)
Definition start (os : net) : Py.M listener unit :=
  Py.try_except
    (p ← Py.gets port;
     bind_socket os p ;;
     listen_socket os ;;
     p ← Py.gets port;
     note (EvInfo (LogListening p)))
    is_OSError
    (λ e,
       note (EvError (LogStartError e)) ;;
       note (EvInfo LogTryOtherPort) ;;
       (* self.port += 1 *)
       Py.modify (λ l, {| port := port l + 1; bound_to := bound_to l;
                          listening := listening l; startup_trace := startup_trace l |}) ;;
       p ← Py.gets port;
       bind_socket os p ;;
       listen_socket os ;;
       p ← Py.gets port;
       note (EvInfo (LogListening p))) ;;
  (* while True: client_socket, address = self.server_socket.accept() ... *)
  Py.block.

(** ** Sequences of registry operations *)

Inductive op :=
| Register (client_id vlan_id : string) (client_socket : sock)
| Unregister (client_id vlan_id : string).

Definition op_client (o : op) : string :=
  match o with Register c _ _ | Unregister c _ => c end.
Definition op_vlan (o : op) : string :=
  match o with Register _ g _ | Unregister _ g => g end.

Definition apply_op (o : op) : Py.M world unit :=
  match o with
  | Register c g s => register_client c g s
  | Unregister c g => unregister_client c g
  end.

(** The server after the calls of [ops], made one after the other. *)
Definition run_ops (ops : list op) (w : world) : world :=
  fold_left (λ w o, (apply_op o w).1) ops w.

(** No dangling membership: whoever is in a group set has a registry
    entry. *)
Definition no_dangling (w : world) : Prop :=
  ∀ g c, c ∈ members w g → is_Some (clients w !! c).

(** Every client of [ops] is named with one group only. *)
Definition one_group_per_client (ops : list op) : Prop :=
  ∀ o1 o2, o1 ∈ ops → o2 ∈ ops → op_client o1 = op_client o2 → op_vlan o1 = op_vlan o2.

(** ** Observing a run *)

(** The events a run added, given the world before and after it. *)
Definition new_events (before after : world) : list event :=
  drop (length (trace before)) (trace after).

(** The delivery attempts among some events: to which client, on which
    socket, with which payload. *)
Definition sent (e : event) : list (string * sock * json) :=
  match e with
  | EvSend c s p => [(c, s, p)]
  | _ => []
  end.
Definition attempts (evs : list event) : list (string * sock * json) := evs ≫= sent.

(** The ports on which a [bind] was tried, in order. *)
Definition bind_attempts (evs : list event) : list Z :=
  evs ≫= λ e, match e with EvBind p => [p] | _ => [] end.

(** The clean-up events: the log line that ends every call of
    [unregister_client], and the [close()] calls. *)
Definition cleanup (e : event) : list event :=
  match e with
  | EvInfo (LogLeave _ _) | EvClose _ => [e]
  | _ => []
  end.
Definition cleanups (evs : list event) : list event := evs ≫= cleanup.

(** A first read that carries a registration: a JSON object with the two
    members [client_id] and [vlan_id]. *)
Definition well_formed_registration (r : recv_result) (c g : string) : Prop :=
  ∃ m, r = RecvText (Document (JObj m)) ∧
       m !! "client_id" = Some c ∧ m !! "vlan_id" = Some g.

(** A read that hands the loop one more message to relay; every other read
    ends the loop: the empty text of a closed peer, text that is not JSON,
    an exception. *)
Definition is_message (r : recv_result) : bool :=
  match r with
  | RecvText (Document _) => true
  | _ => false
  end.

(** ** Closed forms

    What the methods come to, written as plain functions of the state; the
    lemmas of the next part show that the methods compute exactly these. *)

Definition registered (client_id vlan_id : string) (client_socket : sock) (w : world) : world :=
  emit (EvInfo (LogJoin client_id vlan_id))
    (set_vlans (<[vlan_id := members w vlan_id ∪ {[client_id]}]>)
       (set_clients (<[client_id := client_socket]>) w)).

Definition unregistered (client_id vlan_id : string) (w : world) : world :=
  emit (EvInfo (LogLeave client_id vlan_id))
    (set_vlans (alter (λ group, group ∖ {[client_id]}) vlan_id)
       (set_clients (delete client_id) w)).

Definition add_events (evs : list event) (w : world) : world :=
  {| clients := clients w; vlans := vlans w; closed := closed w;
     unreachable := unreachable w; trace := trace w ++ evs |}.

(** The guard of the loop body of [broadcast_to_vlan]. *)
Definition addressed (w : world) (sender_id client_id : string) : bool :=
  bool_decide (client_id ≠ sender_id) && bool_decide (client_id ∈ dom (clients w)).

(** The events of one turn of the loop for a member that passes the guard. *)
Definition delivery (w : world) (message : json) (client_id : string) : list event :=
  match clients w !! client_id with
  | Some s =>
      EvSend client_id s message ::
      (if bool_decide (s ∈ closed w ∪ unreachable w)
       then [EvError (LogSendFailed client_id OSError)] else [])
  | None => []
  end.

Definition turn (w : world) (message : json) (sender_id client_id : string) : list event :=
  if addressed w sender_id client_id then delivery w message client_id else [].

Definition broadcast_events (w : world) (vlan_id : string) (message : json)
    (sender_id : string) : list event :=
  elements (members w vlan_id) ≫= turn w message sender_id.

(** The history of a directory: who is in a group set was put there by a
    call that names the client and the group. *)
Definition accounted (ops : list op) (w : world) : Prop :=
  ∀ g c, c ∈ members w g → ∃ o, o ∈ ops ∧ op_client o = c ∧ op_vlan o = g.

(** The claim of C2 as the specification words it, for one sequence. *)
Definition never_dangling_after (ops : list op) : Prop := no_dangling (run_ops ops init).

(** Every [unregister_client c g] of [ops], run from [w], is called when
    [c] is in the set of no group but [g]. *)
Fixpoint unregisters_are_safe (ops : list op) (w : world) : Prop :=
  match ops with
  | [] => True
  | o :: rest =>
      match o with
      | Unregister c g => ∀ g', c ∈ members w g' → g' = g
      | Register _ _ _ => True
      end
      ∧ unregisters_are_safe rest (apply_op o w).1
  end.

(** The claim of C1 as the specification words it, for one call: the
    deliveries are those to the members of [G] other than [S] that are
    there, and none goes to a client registered in a different group. *)
Definition broadcast_stays_in_its_group (w : world) (G : string) (payload : json)
    (S : string) : Prop :=
  let out := broadcast_to_vlan G payload S w in
  let tried := attempts (new_events w out.1) in
  out.2 = Ok tt
  ∧ (∀ c s p, (c, s, p) ∈ tried ↔
       c ∈ members w G ∧ c ≠ S ∧ clients w !! c = Some s ∧ p = payload)
  ∧ (∀ G' c s p, G' ≠ G → c ∈ members w G' → (c, s, p) ∉ tried)
  ∧ (vlans w !! G = None → out = (w, Ok tt)).

(** The claim of C3 as the specification words it: for a client without
    a registry entry the call is a no-op on both dictionaries. *)
Definition unregister_absent_is_noop (w : world) (c g : string) : Prop :=
  clients w !! c = None →
  let out := unregister_client c g w in
  out.2 = Ok tt ∧ clients out.1 = clients w ∧ vlans out.1 = vlans w.

Definition fresh_listener (q : Z) : listener :=
  {| port := q; bound_to := None; listening := false; startup_trace := [] |}.

(** The [except Exception] and [finally] suites around a body. *)
Definition guarded (client_socket : sock) (body : Py.M frame unit) : Py.M frame unit :=
  Py.try_finally
    (Py.try_except body is_Exception (λ e, self (logger_error (LogHandlerError e))))
    (client_id ← load loc_client_id;
     vlan_id ← load loc_vlan_id;
     self (unregister_client client_id vlan_id) ;;
     self (close client_socket)).

(** The suite of the [try] of [handle_client]. *)
Definition handler_body (client_socket : sock) (inbox : list recv_result) : Py.M frame unit :=
  match inbox with
  | [] => Py.block
  | r :: inbox' =>
      data ← recv_decode r;
      client_info ← json_loads data;
      c ← getitem client_info "client_id";
      store_client_id c ;;
      v ← getitem client_info "vlan_id";
      store_vlan_id v ;;
      client_id ← load loc_client_id;
      vlan_id ← load loc_vlan_id;
      self (register_client client_id vlan_id client_socket) ;;
      relay_loop client_socket inbox'
  end.

Global Arguments register_client : simpl never.
Global Arguments unregister_client : simpl never.
Global Arguments broadcast_to_vlan : simpl never.

(** ** The handler's trace *)

(** The reads that hand the loop the documents [docs], one each. *)
Definition messages (docs : list json) : list recv_result :=
  (λ m, RecvText (Document m)) <$> docs.

(** What the handler logs when a read ends its loop: nothing for the empty
    text of a closed peer, the complaint of the inner [except] for text that
    is not JSON, the complaint of the outer [except] for anything else. *)
Definition exit_log (t : recv_result) : list event :=
  match t with
  | RecvText Empty => []
  | RecvText NotJson => [EvError LogInvalidJson]
  | RecvText (Document _) => []
  | RecvRaises e =>
      if is_JSONDecodeError e then [EvError LogInvalidJson]
      else [EvError (LogHandlerError e)]
  end.

(** The events and the result of the read that ends the loop, before the
    handler's own [except] and [finally]. *)
Definition loop_outcome (t : recv_result) : list event * result unit :=
  match t with
  | RecvRaises e =>
      if is_JSONDecodeError e then ([EvError LogInvalidJson], Ok tt) else ([], Raise e)
  | RecvText NotJson => ([EvError LogInvalidJson], Ok tt)
  | RecvText _ => ([], Ok tt)
  end.

(** No orphan entry: whoever has a registry entry is in some group set. *)
Definition no_orphan (w : world) : Prop :=
  ∀ c, is_Some (clients w !! c) → ∃ g, c ∈ members w g.

(** ** The client *)

Module VLANClient.

(** The log records of [VLANClient], one constructor per message. *)
Inductive log :=
| Connected (host : string) (port : Z)   (* "已连接到服务器 host:port" *)
| ConnectFailed (e : exn)                (* "连接服务器失败" *)
| SendFailed (e : exn)                   (* "发送消息失败" *)
| Received (message : json)              (* "收到消息" *)
| ReceiveFailed (e : exn).               (* "接收消息失败" *)

Inductive io :=
| Connect (host : string) (port : Z)     (* client_socket.connect((host, port)) *)
| Send (payload : json)                  (* client_socket.send(json.dumps(payload).encode()) *)
| Close                                  (* client_socket.close() *)
| Info (m : log)
| Error (m : log).

(** A [VLANClient]: the four attributes of [__init__], the state of
    [self.client_socket], the documents the socket has taken, and the
    events so far. *)
Record t := Client {
  client_id : string;
  vlan_id : string;
  server_host : string;
  server_port : Z;
  connected : bool;
  closed : bool;
  outbox : list json;
  trace : list io
}.

(** [VLANClient.__init__], with its defaults for host and port. *)
Definition new (client_id vlan_id : string) (host : option string) (port : option Z) : t :=
  {| client_id := client_id; vlan_id := vlan_id;
     server_host := default "localhost" host; server_port := default 5000 port;
     connected := false; closed := false; outbox := []; trace := [] |}.

(** What the network answers: whether the server accepts the connection,
    and whether a write on the connection goes through. *)
Record link := Link {
  server_accepts : bool;
  writable : bool
}.

Definition emit (e : io) (c : t) : t :=
  {| client_id := client_id c; vlan_id := vlan_id c;
     server_host := server_host c; server_port := server_port c;
     connected := connected c; closed := closed c; outbox := outbox c;
     trace := trace c ++ [e] |}.
Definition set_connected (c : t) : t :=
  {| client_id := client_id c; vlan_id := vlan_id c;
     server_host := server_host c; server_port := server_port c;
     connected := true; closed := closed c; outbox := outbox c;
     trace := trace c |}.
Definition set_closed (c : t) : t :=
  {| client_id := client_id c; vlan_id := vlan_id c;
     server_host := server_host c; server_port := server_port c;
     connected := connected c; closed := true; outbox := outbox c;
     trace := trace c |}.
Definition push (payload : json) (c : t) : t :=
  {| client_id := client_id c; vlan_id := vlan_id c;
     server_host := server_host c; server_port := server_port c;
     connected := connected c; closed := closed c; outbox := outbox c ++ [payload];
     trace := trace c |}.

Definition logger_info (m : log) : Py.M t unit := Py.modify (emit (Info m)).
Definition logger_error (m : log) : Py.M t unit := Py.modify (emit (Error m)).

(** [self.client_socket.connect((host, port))]: an [OSError] on a socket
    that is closed or connected already, or when the server does not
    accept. *)
Definition socket_connect (net : link) : Py.M t unit :=
  c ← Py.get;
  Py.modify (emit (Connect (server_host c) (server_port c))) ;;
  if closed c || connected c then Py.raise OSError
  else if server_accepts net then Py.modify set_connected
  else Py.raise OSError.

(** [self.client_socket.send(json.dumps(payload).encode())]: an [OSError]
    on a socket that is closed or not connected, or when the write fails. *)
Definition socket_send (net : link) (payload : json) : Py.M t unit :=
  Py.modify (emit (Send payload)) ;;
  c ← Py.get;
  if closed c || negb (connected c) then Py.raise OSError
  else if writable net then Py.modify (push payload)
  else Py.raise OSError.

(** [self.client_socket.recv(1024).decode()]: an [OSError] on a socket that
    is closed or not connected, else what the connection gives. *)
Definition socket_recv (r : recv_result) : Py.M t text :=
  c ← Py.get;
  if closed c || negb (connected c) then Py.raise OSError
  else recv_decode r.

(** The dictionary [registration_info] of [connect]. *)
Definition registration_info (c : t) : json :=
  JObj {[ "client_id" := client_id c; "vlan_id" := vlan_id c ]}.

(** [VLANClient.connect] *)
Definition connect (net : link) : Py.M t bool :=
  Py.try_except
    (socket_connect net ;;
     c ← Py.get;
     socket_send net (registration_info c) ;;
     logger_info (Connected (server_host c) (server_port c)) ;;
     Py.ret true)
    is_Exception
    (λ e, logger_error (ConnectFailed e) ;; Py.ret false).

(** [VLANClient.send_message] *)
Definition send_message (net : link) (message : json) : Py.M t unit :=
  Py.try_except
    (socket_send net message)
    is_Exception
    (λ e, logger_error (SendFailed e)).

(** [VLANClient.receive_messages]; [inbox] is what the successive [recv]
    calls give, and the thread waits for ever once it is used up.  The
    body yields [true] to go round again and [false] on [break]. *)
Fixpoint receive_messages (inbox : list recv_result) : Py.M t unit :=
  match inbox with
  | [] => Py.block
  | r :: inbox' =>
      again ← Py.try_except
        (data ← socket_recv r;
         if is_empty data then Py.ret false
         else
           message ← json_loads data;
           logger_info (Received message) ;;
           Py.ret true)
        is_Exception
        (λ e, logger_error (ReceiveFailed e) ;; Py.ret false);
      if again then receive_messages inbox' else Py.ret tt
  end.

(** [VLANClient.close] *)
Definition close : Py.M t unit :=
  Py.modify (emit Close) ;;
  Py.modify set_closed.

(** The messages the client has logged as received, in order. *)
Definition received (evs : list io) : list json :=
  evs ≫= λ e, match e with Info (Received m) => [m] | _ => [] end.

(** The errors the client has logged, in order. *)
Definition errors (evs : list io) : list log :=
  evs ≫= λ e, match e with Error m => [m] | _ => [] end.

(** The documents at the head of an inbox, up to the first read that is
    not one. *)
Fixpoint leading_documents (inbox : list recv_result) : list json :=
  match inbox with
  | RecvText (Document m) :: rest => m :: leading_documents rest
  | _ => []
  end.

(** The events a call added. *)
Definition added (before after : t) : list io :=
  drop (length (trace before)) (trace after).

(** A socket that can still be connected: neither closed nor connected. *)
Definition fresh (c : t) : bool := negb (closed c || connected c).

(** A socket that can be written and read: connected and not closed. *)
Definition usable (c : t) : bool := negb (closed c || negb (connected c)).

(** What [receive_messages] logs at the read that ends its loop. *)
Definition exit_errors (t : recv_result) : list log :=
  match t with
  | RecvRaises e => [ReceiveFailed e]
  | RecvText NotJson => [ReceiveFailed JSONDecodeError]
  | RecvText _ => []
  end.

(** The client after it has logged the documents [docs] as received. *)
Definition log_all (docs : list json) (c : t) : t :=
  foldl (λ c m, emit (Info (Received m)) c) c docs.

End VLANClient.

(** The documents that went out on the socket [s] among the events [evs]
    of a run from the world [w]: those of the [send] calls on [s], none of
    which failed when [s] was neither closed nor unreachable in [w]. *)
Definition written_to (w : world) (s : sock) (evs : list event) : list json :=
  if bool_decide (s ∈ closed w ∪ unreachable w) then []
  else evs ≫= λ e,
    match e with
    | EvSend _ s' p => if bool_decide (s' = s) then [p] else []
    | _ => []
    end.

(** ** The countdown of [hello.py] *)

Module Hello.

(** What the script does to the terminal and the clock. *)
Inductive io :=
| Write (s : string)       (* characters written to stdout *)
| Sleep (seconds : Z).     (* time.sleep(seconds) *)

(** The carriage return and the line feed that end the two kinds of
    [print]. *)
Definition cr : string := String (Ascii.ascii_of_nat 13) "".
Definition lf : string := String (Ascii.ascii_of_nat 10) "".

(** ['{:02d}'.format(n)]: the decimal digits of [n], with a zero in front
    when that makes two characters; the sign counts for the width. *)
Definition format_02d (n : Z) : string :=
  let digits := pretty n in
  if (String.length digits <? 2)%nat then "0" +:+ digits else digits.

(** ['{:02d}:{:02d}'.format(mins, secs)] after
    [mins, secs = divmod(seconds, 60)]. *)
Definition timer (seconds : Z) : string :=
  format_02d (seconds `div` 60) +:+ ":" +:+ format_02d (seconds `mod` 60).

(** The [while seconds:] loop of [Countdown]; [fuel] bounds the number of
    turns, and [None] says the loop has not come to its end within them. *)
Fixpoint Countdown_loop (fuel : nat) (seconds : Z) (out : list io) : option (list io) :=
  if seconds =? 0 then Some out
  else
    match fuel with
    | O => None
    | S fuel' =>
        Countdown_loop fuel' (seconds - 1)
          (out ++ [Write (timer seconds +:+ cr); Sleep 1])
    end.

(** [Countdown(minutes)] *)
Definition Countdown (fuel : nat) (minutes : Z) : option (list io) :=
  match Countdown_loop fuel (minutes * 60) [] with
  | Some out => Some (out ++ [Write ("Time is up!" +:+ lf)])
  | None => None
  end.

(** The script run as a programme, [answer] being the line [input]
    returns. *)
Definition wait_time : Z := 10.
Definition main (fuel : nat) (answer : string) : option (list io) :=
  let asked := [Write "环境配置开始倒计时吗? : Y/n"] in
  if bool_decide (answer = "Y") || bool_decide (answer = "y") then
    match Countdown fuel wait_time with
    | Some out => Some (asked ++ out)
    | None => None
    end
  else Some (asked ++ [Write ("程序结束" +:+ lf)]).

(** The turns of the loop from [total] seconds down to one: each writes
    the time left and sleeps a second. *)
Definition tick (seconds : nat) : list io :=
  [Write (timer (Z.of_nat seconds) +:+ cr); Sleep 1].
Definition ticks (total : nat) : list io := reverse (seq 1 total) ≫= tick.

Definition slept (out : list io) : Z :=
  foldr (λ e acc, match e with Sleep n => n + acc | Write _ => acc end) 0 out.

End Hello.

(** * Properties *)

(** ** What the two registry operations compute *)

Lemma world_eq (w1 w2 : world) :
  clients w1 = clients w2 → vlans w1 = vlans w2 → closed w1 = closed w2 →
  unreachable w1 = unreachable w2 → trace w1 = trace w2 → w1 = w2.
Proof. destruct w1, w2; simpl; intros; subst; reflexivity. Qed.

Lemma register_client_run c g s w :
  register_client c g s w = (registered c g s w, Ok tt).
Proof.
  unfold register_client, registered, members, Py.bind, Py.modify, Py.get, Py.ret,
    logger_info; simpl.
  case_bool_decide as Hdom; simpl.
  - apply elem_of_dom in Hdom as [group Hg]. rewrite Hg. simpl. reflexivity.
  - apply not_elem_of_dom in Hdom. rewrite Hdom, lookup_insert_eq. simpl.
    unfold Py.modify. f_equal. apply world_eq; simpl; try reflexivity.
    apply insert_insert_eq.
Qed.

Lemma alter_remove_member (c g : string) (v : gmap string (gset string)) :
  alter (λ group, group ∖ {[c]}) g v =
  match v !! g with
  | Some group => if bool_decide (c ∈ group) then <[g := group ∖ {[c]}]> v else v
  | None => v
  end.
Proof.
  apply map_eq. intros k. rewrite lookup_alter.
  destruct (v !! g) as [group|] eqn:Hg; simpl.
  - case_bool_decide as Hin.
    + rewrite lookup_insert. destruct (decide (g = k)); reflexivity.
    + destruct (decide (g = k)) as [<-|]; [|reflexivity].
      rewrite Hg. simpl. f_equal.
      by apply difference_disjoint_L, disjoint_singleton_r.
  - destruct (decide (g = k)) as [<-|]; [by rewrite Hg | reflexivity].
Qed.

Lemma unregister_client_run c g w :
  unregister_client c g w = (unregistered c g w, Ok tt).
Proof.
  unfold unregister_client, unregistered, Py.bind, Py.get, logger_info; simpl.
  case_bool_decide as Hdom; simpl;
    (destruct (vlans w !! g) as [group|] eqn:Hg; simpl;
     [case_bool_decide as Hin; simpl|]);
    unfold Py.modify; f_equal; apply world_eq; simpl; try reflexivity;
    try (rewrite alter_remove_member, Hg; try rewrite bool_decide_true by done;
         try rewrite bool_decide_false by done; reflexivity);
    symmetry; apply delete_id; by apply not_elem_of_dom.
Qed.

(** ** What a broadcast computes *)

Lemma add_events_nil w : add_events [] w = w.
Proof. apply world_eq; simpl; auto using app_nil_r. Qed.

Lemma add_events_app e1 e2 w : add_events e2 (add_events e1 w) = add_events (e1 ++ e2) w.
Proof. apply world_eq; simpl; auto using app_assoc. Qed.

Lemma broadcast_turn w m sender c :
  (w' ← Py.get;
   if bool_decide (c ≠ sender) && bool_decide (c ∈ dom (clients w'))
   then
     Py.try_except
       (match clients w' !! c with
        | None => Py.raise KeyError
        | Some s => send c s m
        end)
       is_Exception
       (λ e, logger_error (LogSendFailed c e))
   else Py.ret tt) w
  = (add_events (turn w m sender c) w, Ok tt).
Proof.
  unfold turn, addressed, delivery, Py.bind, Py.get. simpl.
  destruct (bool_decide (c ≠ sender)); simpl;
    [|by rewrite add_events_nil].
  case_bool_decide as Hdom; simpl; [|by rewrite add_events_nil].
  apply elem_of_dom in Hdom as [s Hs]. rewrite Hs.
  unfold Py.try_except, send, Py.bind, Py.modify, Py.get. simpl.
  case_bool_decide; simpl; unfold logger_error, Py.modify, Py.ret; f_equal;
    apply world_eq; simpl; try reflexivity.
  by rewrite <- app_assoc.
Qed.

Lemma broadcast_loop m sender (xs : list string) w :
  Py.for_each xs (λ c,
    w' ← Py.get;
    if bool_decide (c ≠ sender) && bool_decide (c ∈ dom (clients w'))
    then
      Py.try_except
        (match clients w' !! c with
         | None => Py.raise KeyError
         | Some s => send c s m
         end)
        is_Exception
        (λ e, logger_error (LogSendFailed c e))
    else Py.ret tt) w
  = (add_events (xs ≫= turn w m sender) w, Ok tt).
Proof.
  revert w. induction xs as [|c xs IH]; intros w; simpl.
  - by rewrite add_events_nil.
  - unfold Py.bind at 1. rewrite broadcast_turn, IH.
    by rewrite add_events_app.
Qed.

Lemma broadcast_to_vlan_run g m sender w :
  broadcast_to_vlan g m sender w = (add_events (broadcast_events w g m sender) w, Ok tt).
Proof.
  unfold broadcast_to_vlan, broadcast_events, members.
  unfold Py.bind at 1. unfold Py.get at 1.
  destruct (vlans w !! g) as [group|]; simpl.
  - apply broadcast_loop.
  - rewrite elements_empty. simpl. by rewrite add_events_nil.
Qed.

Lemma new_events_add evs w : new_events w (add_events evs w) = evs.
Proof. unfold new_events. simpl. apply drop_app_length. Qed.

Lemma attempts_app e1 e2 : attempts (e1 ++ e2) = attempts e1 ++ attempts e2.
Proof. apply bind_app. Qed.

Lemma attempts_bind {A} (f : A → list event) (xs : list A) :
  attempts (xs ≫= f) = xs ≫= (λ x, attempts (f x)).
Proof.
  induction xs as [|x xs IH]; [reflexivity|].
  rewrite !bind_cons, attempts_app. by f_equal.
Qed.

Lemma attempts_turn w m sender c :
  attempts (turn w m sender c) =
  match clients w !! c with
  | Some s => if bool_decide (c ≠ sender) then [(c, s, m)] else []
  | None => []
  end.
Proof.
  unfold turn, addressed, delivery.
  destruct (clients w !! c) as [s|] eqn:Hc.
  - rewrite (bool_decide_true (c ∈ dom (clients w))) by (apply elem_of_dom; eauto).
    rewrite andb_true_r. destruct (bool_decide (c ≠ sender)); [|reflexivity].
    by destruct (bool_decide (s ∈ closed w ∪ unreachable w)).
  - by destruct (_ && _).
Qed.

Lemma elem_of_attempts_broadcast w g m sender c s p :
  (c, s, p) ∈ attempts (broadcast_events w g m sender) ↔
  c ∈ members w g ∧ c ≠ sender ∧ clients w !! c = Some s ∧ p = m.
Proof.
  unfold broadcast_events. rewrite attempts_bind, list_elem_of_bind. split.
  - intros (x & Hin & Hx). rewrite attempts_turn in Hin.
    apply elem_of_elements in Hx.
    destruct (clients w !! x) as [s'|] eqn:Hc; [|by apply not_elem_of_nil in Hin].
    case_bool_decide; [|by apply not_elem_of_nil in Hin].
    apply list_elem_of_singleton in Hin. by simplify_eq.
  - intros (Hmem & Hne & Hc & ->). exists c. split; [|by apply elem_of_elements].
    rewrite attempts_turn, Hc, bool_decide_true by done. apply list_elem_of_here.
Qed.

Lemma NoDup_attempts_broadcast w g m sender :
  NoDup (attempts (broadcast_events w g m sender)).
Proof.
  unfold broadcast_events. rewrite attempts_bind. apply NoDup_bind.
  - intros x1 x2 [[c s] p] _ _ H1 H2. rewrite attempts_turn in H1, H2.
    destruct (clients w !! x1); [|by apply not_elem_of_nil in H1].
    destruct (clients w !! x2); [|by apply not_elem_of_nil in H2].
    repeat case_bool_decide; try (by apply not_elem_of_nil in H1);
      try (by apply not_elem_of_nil in H2).
    apply list_elem_of_singleton in H1, H2. congruence.
  - intros x _. rewrite attempts_turn.
    destruct (clients w !! x); [|constructor].
    case_bool_decide; [apply NoDup_singleton | constructor].
  - apply NoDup_elements.
Qed.

Lemma attempts_broadcast w g m sender :
  attempts (broadcast_events w g m sender) =
  elements (default ∅ (vlans w !! g)) ≫= λ c,
    match clients w !! c with
    | Some s => if bool_decide (c ≠ sender) then [(c, s, m)] else []
    | None => []
    end.
Proof.
  unfold broadcast_events, members. rewrite attempts_bind.
  induction (elements _) as [|c xs IH]; [reflexivity|].
  rewrite !bind_cons, attempts_turn. by f_equal.
Qed.

Lemma elem_of_broadcast_events w g m sender e :
  e ∈ broadcast_events w g m sender ↔
  ∃ c s, c ∈ members w g ∧ c ≠ sender ∧ clients w !! c = Some s ∧
         (e = EvSend c s m ∨
          (e = EvError (LogSendFailed c OSError) ∧ s ∈ closed w ∪ unreachable w)).
Proof.
  unfold broadcast_events. rewrite list_elem_of_bind. split.
  - intros (c & Hin & Hc). apply elem_of_elements in Hc.
    unfold turn, addressed, delivery in Hin.
    case_bool_decide as Hne; simpl in Hin; [|by apply not_elem_of_nil in Hin].
    case_bool_decide as Hdom; simpl in Hin; [|by apply not_elem_of_nil in Hin].
    destruct (clients w !! c) as [s|] eqn:Hs; [|by apply not_elem_of_nil in Hin].
    exists c, s. split_and!; try done.
    apply elem_of_cons in Hin as [->|Hin]; [by left|].
    case_bool_decide; [|by apply not_elem_of_nil in Hin].
    apply list_elem_of_singleton in Hin. by right.
  - intros (c & s & Hmem & Hne & Hs & He). exists c.
    split; [|by apply elem_of_elements].
    unfold turn, addressed, delivery.
    rewrite bool_decide_true by done.
    rewrite bool_decide_true by (apply elem_of_dom; eauto).
    simpl. rewrite Hs.
    destruct He as [->|[-> Hbad]]; [apply list_elem_of_here|].
    apply list_elem_of_further. rewrite bool_decide_true by done.
    apply list_elem_of_here.
Qed.

(** ** Group broadcast *)

(** C1, as stated, fails.  The identifier "a" registers in "g1" and then,
    on a second connection, in "g2": it is in both sets and its registry
    entry is the second socket.  A broadcast in "g1" is then written to
    that socket, the one of a client registered in the different group
    "g2". *)
Lemma broadcast_reaches_a_client_of_another_group :
  ¬ broadcast_stays_in_its_group
      (run_ops [Register "a" "g1" 1%nat; Register "a" "g2" 2%nat] init)
      "g1" (JStr "hi") "b".
Proof.
  unfold run_ops. cbn [fold_left apply_op].
  rewrite !register_client_run. cbn [fst].
  set (w0 := registered "a" "g2" 2%nat (registered "a" "g1" 1%nat init)).
  intros (_ & _ & Hnone & _).
  apply (Hnone "g2" "a" 2%nat (JStr "hi")).
  - discriminate.
  - subst w0. unfold members at 1. cbn [vlans registered emit set_vlans set_clients].
    rewrite lookup_insert_eq. cbn [from_option id]. apply elem_of_union_r.
    by apply elem_of_singleton.
  - rewrite broadcast_to_vlan_run. cbn [fst]. rewrite new_events_add.
    apply elem_of_attempts_broadcast. split_and!.
    + subst w0. unfold members at 1.
      cbn [vlans registered emit set_vlans set_clients].
      rewrite lookup_insert_ne by discriminate. rewrite lookup_insert_eq.
      cbn [from_option id]. apply elem_of_union_r. by apply elem_of_singleton.
    + discriminate.
    + subst w0. cbn [clients registered emit set_vlans set_clients].
      apply lookup_insert_eq.
    + reflexivity.
Qed.

(** C1, amended.  In every state, [broadcast_to_vlan G payload S] returns
    normally and attempts one delivery of [payload] to each member of the
    set of [G] other than [S] that has a connection in the registry at that
    moment, on that connection, and to no one else: a client registered in
    a different group gets nothing unless its identifier is in the set of
    [G] as well.  When the directory has no key [G] the call changes
    nothing at all. *)
Theorem broadcast_reaches_the_group w G payload S :
  let out := broadcast_to_vlan G payload S w in
  let tried := attempts (new_events w out.1) in
  out.2 = Ok tt
  ∧ (∀ c s p, (c, s, p) ∈ tried ↔
       c ∈ members w G ∧ c ≠ S ∧ clients w !! c = Some s ∧ p = payload)
  ∧ NoDup tried
  ∧ (∀ G' c s p, G' ≠ G → c ∈ members w G' → c ∉ members w G → (c, s, p) ∉ tried)
  ∧ (vlans w !! G = None → out = (w, Ok tt)).
Proof.
  simpl. rewrite broadcast_to_vlan_run. simpl. rewrite new_events_add.
  split_and!.
  - reflexivity.
  - intros c s p. apply elem_of_attempts_broadcast.
  - apply NoDup_attempts_broadcast.
  - intros G' c s p _ _ Hout Hin.
    apply elem_of_attempts_broadcast in Hin. tauto.
  - intros Hnone. unfold broadcast_events, members. rewrite Hnone. simpl.
    rewrite elements_empty. simpl. by rewrite add_events_nil.
Qed.

(** C10.  In every state, [broadcast_to_vlan] writes only to clients that
    have a registry entry, on the socket of that entry.  A member of the
    group without an entry is passed over in silence: nothing is sent for
    it, nothing is logged for it, and no [KeyError] comes of it.  The call
    leaves both dictionaries as they were. *)
Theorem broadcast_skips_members_without_entry w G payload S :
  let out := broadcast_to_vlan G payload S w in
  let evs := new_events w out.1 in
  out.2 = Ok tt
  ∧ (∀ c s p, (c, s, p) ∈ attempts evs → clients w !! c = Some s)
  ∧ (∀ c, c ∈ members w G → clients w !! c = None →
       (∀ s p, (c, s, p) ∉ attempts evs) ∧ (∀ e, EvError (LogSendFailed c e) ∉ evs))
  ∧ (∀ c, EvError (LogSendFailed c KeyError) ∉ evs)
  ∧ clients out.1 = clients w
  ∧ vlans out.1 = vlans w.
Proof.
  simpl. rewrite broadcast_to_vlan_run. simpl. rewrite new_events_add.
  split_and!; try reflexivity.
  - intros c s p Hin. apply elem_of_attempts_broadcast in Hin. tauto.
  - intros c _ Hnone. split.
    + intros s p Hin. apply elem_of_attempts_broadcast in Hin.
      destruct Hin as (_ & _ & Hs & _). congruence.
    + intros e Hin. apply elem_of_broadcast_events in Hin.
      destruct Hin as (c' & s & _ & _ & Hs & [?|[? _]]); simplify_eq.
  - intros c Hin. apply elem_of_broadcast_events in Hin.
    destruct Hin as (c' & s & _ & _ & _ & [?|[? _]]); simplify_eq.
Qed.

(** One turn of the handler loop on a well-formed message. *)
Lemma relay_loop_message client_socket m rest f c g :
  loc_client_id f = Some c → loc_vlan_id f = Some g →
  relay_loop client_socket (RecvText (Document m) :: rest) f =
  relay_loop client_socket rest (with_server (broadcast_to_vlan g m c (server f)).1 f).
Proof.
  intros Hc Hg. simpl.
  unfold Py.bind, Py.try_except, load, self, Py.lift, Py.ret. simpl.
  rewrite Hg, Hc, broadcast_to_vlan_run. reflexivity.
Qed.

(** C4.  A write that fails during [broadcast_to_vlan] is caught and logged
    with the client it was for; the deliveries attempted are the same as
    in any world with the same two dictionaries, whichever sockets fail
    there, so the members after the failing one are still served; the call
    returns normally; it closes no socket and leaves the registry alone,
    and the handler that called it for a message of its own client goes on
    to its next [recv]. *)
Theorem broadcast_survives_write_failures w G payload S :
  let out := broadcast_to_vlan G payload S w in
  let evs := new_events w out.1 in
  out.2 = Ok tt
  ∧ (∀ c s, (c, s, payload) ∈ attempts evs → s ∈ closed w ∪ unreachable w →
       EvError (LogSendFailed c OSError) ∈ evs)
  ∧ (∀ w0, clients w0 = clients w → vlans w0 = vlans w →
       attempts (new_events w0 (broadcast_to_vlan G payload S w0).1) = attempts evs)
  ∧ (∀ s, EvClose s ∉ evs)
  ∧ closed out.1 = closed w
  ∧ clients out.1 = clients w
  ∧ (∀ client_socket rest f,
       server f = w → loc_client_id f = Some S → loc_vlan_id f = Some G →
       relay_loop client_socket (RecvText (Document payload) :: rest) f =
       relay_loop client_socket rest (with_server out.1 f)).
Proof.
  simpl. split_and!.
  - by rewrite broadcast_to_vlan_run.
  - rewrite broadcast_to_vlan_run. simpl. rewrite new_events_add.
    intros c s Hin Hbad. apply elem_of_attempts_broadcast in Hin.
    destruct Hin as (Hmem & Hne & Hs & _).
    apply elem_of_broadcast_events. exists c, s. split_and!; auto.
  - intros w0 Hc Hv. rewrite !broadcast_to_vlan_run. simpl.
    rewrite !new_events_add, !attempts_broadcast, Hc, Hv. reflexivity.
  - rewrite broadcast_to_vlan_run. simpl. rewrite new_events_add.
    intros s Hin. apply elem_of_broadcast_events in Hin.
    destruct Hin as (c & s' & _ & _ & _ & [?|[? _]]); simplify_eq.
  - by rewrite broadcast_to_vlan_run.
  - by rewrite broadcast_to_vlan_run.
  - intros client_socket rest f <- Hc Hg. by apply relay_loop_message.
Qed.

(** ** Registry and directory *)

Lemma elem_of_members_registered c0 g0 s w g c :
  c ∈ members (registered c0 g0 s w) g ↔ c ∈ members w g ∨ (g = g0 ∧ c = c0).
Proof.
  unfold members at 1. simpl. rewrite lookup_insert.
  destruct (decide (g0 = g)) as [<-|Hne]; simpl.
  - rewrite elem_of_union, elem_of_singleton. naive_solver.
  - fold (members w g). naive_solver.
Qed.

Lemma elem_of_members_unregistered c0 g0 w g c :
  c ∈ members (unregistered c0 g0 w) g ↔ c ∈ members w g ∧ ¬ (g = g0 ∧ c = c0).
Proof.
  unfold members. simpl. rewrite lookup_alter.
  destruct (decide (g0 = g)) as [<-|Hne].
  - destruct (vlans w !! g0) as [group|]; simpl.
    + rewrite elem_of_difference, elem_of_singleton. naive_solver.
    + set_solver.
  - naive_solver.
Qed.

(** C7.  When [register_client] is called for a [client_id] that already
    has a registry entry with another socket, the entry afterwards holds
    the socket of this call, and the call closes nothing: the set of
    closed sockets is as before and no [close()] is among its events. *)
Theorem register_client_last_write_wins w c g s_old s_new :
  clients w !! c = Some s_old → s_old ≠ s_new →
  let out := register_client c g s_new w in
  out.2 = Ok tt
  ∧ clients out.1 !! c = Some s_new
  ∧ closed out.1 = closed w
  ∧ (s_old ∈ closed out.1 ↔ s_old ∈ closed w)
  ∧ (∀ s, EvClose s ∉ new_events w out.1).
Proof.
  intros _ _. simpl. rewrite register_client_run. simpl.
  split_and!; try done.
  - apply lookup_insert_eq.
  - intros s. unfold new_events. simpl. rewrite drop_app_length.
    intros Hin. apply list_elem_of_singleton in Hin. discriminate.
Qed.

Lemma register_client_last_write_wins_witness :
  let w := (register_client "a" "g" 1%nat init).1 in
  clients w !! "a" = Some 1%nat ∧
  clients (register_client "a" "g" 2%nat w).1 !! "a" = Some 2%nat ∧
  closed (register_client "a" "g" 2%nat w).1 = closed w.
Proof.
  simpl.
  assert (H : clients (register_client "a" "g" 1%nat init).1 !! "a" = Some 1%nat)
    by (vm_compute; reflexivity).
  split; [exact H|].
  pose proof (register_client_last_write_wins _ "a" "g" 1%nat 2%nat H ltac:(lia)) as P.
  simpl in P. tauto.
Defined.

(** C9.  The directory entry of a group comes into being with the first
    registration that names the group, and no operation takes a key out of
    the directory: not [register_client], not [unregister_client], not
    [broadcast_to_vlan].  When the only member of a group is unregistered,
    the empty set stays under the group's key. *)
Theorem group_entry_is_never_removed :
  (∀ w c g s, vlans w !! g = None →
     vlans (register_client c g s w).1 !! g = Some {[c]})
  ∧ (∀ w g, is_Some (vlans w !! g) →
       (∀ c g' s, is_Some (vlans (register_client c g' s w).1 !! g))
       ∧ (∀ c g', is_Some (vlans (unregister_client c g' w).1 !! g))
       ∧ (∀ g' m S, is_Some (vlans (broadcast_to_vlan g' m S w).1 !! g)))
  ∧ (∀ w c g, vlans w !! g = Some {[c]} →
       vlans (unregister_client c g w).1 !! g = Some ∅).
Proof.
  split_and!.
  - intros w c g s Hnone. rewrite register_client_run. simpl.
    unfold members. rewrite Hnone, lookup_insert_eq. simpl.
    f_equal. apply union_empty_l_L.
  - intros w g Hg. split_and!.
    + intros c g' s. rewrite register_client_run. simpl.
      rewrite lookup_insert. by destruct (decide (g' = g)).
    + intros c g'. rewrite unregister_client_run. simpl.
      rewrite lookup_alter. destruct (decide (g' = g)) as [->|]; [|done].
      by apply fmap_is_Some.
    + intros g' m S. by rewrite broadcast_to_vlan_run.
  - intros w c g Hg. rewrite unregister_client_run. simpl.
    rewrite lookup_alter_eq, Hg. simpl. f_equal. apply difference_diag_L.
Qed.

Lemma run_ops_snoc ops o w :
  run_ops (ops ++ [o]) w = (apply_op o (run_ops ops w)).1.
Proof. unfold run_ops. by rewrite fold_left_app. Qed.

Lemma apply_op_run o w :
  apply_op o w =
  (match o with
   | Register c g s => registered c g s w
   | Unregister c g => unregistered c g w
   end, Ok tt).
Proof. destruct o; simpl; [apply register_client_run | apply unregister_client_run]. Qed.

(** A registration never breaks the invariant, whatever its arguments. *)
Lemma register_keeps_no_dangling c g s w :
  no_dangling w → no_dangling (register_client c g s w).1.
Proof.
  intros Hw g' c'. rewrite register_client_run. simpl.
  rewrite elem_of_members_registered.
  change (clients (registered c g s w)) with (<[c := s]> (clients w)).
  rewrite lookup_insert. destruct (decide (c = c')); [by eauto|].
  intros [Hin|[_ ?]]; [by eapply Hw | congruence].
Qed.

Lemma run_ops_accounted ops : accounted ops (run_ops ops init).
Proof.
  induction ops as [|o ops IH] using rev_ind.
  - intros g c Hin. unfold members in Hin. simpl in Hin.
    rewrite lookup_empty in Hin. simpl in Hin. set_solver.
  - intros g c. rewrite run_ops_snoc, apply_op_run. simpl.
    destruct o as [c0 g0 s|c0 g0].
    + rewrite elem_of_members_registered. intros [Hin|[-> ->]].
      * destruct (IH g c Hin) as (o & Ho & ? & ?). exists o.
        rewrite elem_of_app. auto.
      * exists (Register c0 g0 s). rewrite elem_of_app, list_elem_of_singleton. auto.
    + rewrite elem_of_members_unregistered. intros [Hin _].
      destruct (IH g c Hin) as (o & Ho & ? & ?). exists o.
      rewrite elem_of_app. auto.
Qed.

(** C2, as stated, fails.  A client registers as "a" in "g1"; a second
    connection registers as "a" in "g2"; the second connection ends.  Its
    clean-up removes the registry entry of "a" and the membership in "g2",
    and "a" stays in the set of "g1" without a registry entry. *)
Lemma dangling_after_regrouping :
  ¬ never_dangling_after
      [Register "a" "g1" 1%nat; Register "a" "g2" 2%nat; Unregister "a" "g2"].
Proof.
  intros H. specialize (H "g1" "a").
  unfold run_ops in H. cbn [fold_left apply_op] in H.
  rewrite !register_client_run, unregister_client_run in H. cbn [fst] in H.
  assert (Hin : "a" ∈ members
      (unregistered "a" "g2"
         (registered "a" "g2" 2%nat (registered "a" "g1" 1%nat init))) "g1").
  { rewrite elem_of_members_unregistered, !elem_of_members_registered.
    split; [|intros [? _]; discriminate]. left. by right. }
  apply H in Hin. unfold unregistered in Hin.
  cbn [clients emit set_vlans set_clients] in Hin.
  rewrite lookup_delete_eq in Hin. by destruct Hin.
Qed.

(** An [unregister_client c g] called when [c] is in the set of no other
    group keeps the invariant. *)
Lemma safe_unregister_keeps_no_dangling c g w :
  (∀ g', c ∈ members w g' → g' = g) →
  no_dangling w → no_dangling (unregister_client c g w).1.
Proof.
  intros Hsafe Hw g' c'. rewrite unregister_client_run. cbn [fst].
  rewrite elem_of_members_unregistered. intros [Hin Hnot].
  change (clients (unregistered c g w)) with (delete c (clients w)).
  rewrite lookup_delete. destruct (decide (c = c')) as [<-|]; [|by eapply Hw].
  exfalso. apply Hnot. split; [by apply Hsafe | reflexivity].
Qed.

(** And one called when [c] is in the set of another group breaks it,
    whatever the state was. *)
Lemma unsafe_unregister_leaves_a_dangling_member c g g' w :
  c ∈ members w g' → g' ≠ g → ¬ no_dangling (unregister_client c g w).1.
Proof.
  intros Hin Hne Hno. rewrite unregister_client_run in Hno. cbn [fst] in Hno.
  destruct (Hno g' c) as [s Hs].
  - apply elem_of_members_unregistered. split; [done|]. intros [? _]. done.
  - cbn in Hs. by rewrite lookup_delete_eq in Hs.
Qed.

Lemma no_dangling_run_ops ops w :
  no_dangling w → unregisters_are_safe ops w → no_dangling (run_ops ops w).
Proof.
  revert w. induction ops as [|o ops IH]; intros w Hw Hsafe; [exact Hw|].
  destruct Hsafe as [Ho Hrest].
  change (run_ops (o :: ops) w) with (run_ops ops (apply_op o w).1).
  apply IH; [|exact Hrest].
  destruct o as [c g s|c g]; cbn [apply_op].
  - by apply register_keeps_no_dangling.
  - by apply safe_unregister_keeps_no_dangling.
Qed.

(** C2, amended.  Starting from the empty dictionaries, after every finite
    sequence of [register_client] and [unregister_client] calls, with any
    arguments and with an identifier registered again under another group
    if it comes so, in which every [unregister_client c g] is called when
    [c] is in the set of no group other than [g], whoever is in a group set
    has a registry entry. *)
Theorem no_dangling_when_unregisters_are_safe ops :
  unregisters_are_safe ops init → no_dangling (run_ops ops init).
Proof.
  apply no_dangling_run_ops. intros g c Hin.
  unfold members in Hin. cbn [vlans init] in Hin.
  rewrite lookup_empty in Hin. by apply not_elem_of_empty in Hin.
Qed.

Lemma no_dangling_when_unregisters_are_safe_witness :
  let ops := [Register "a" "g1" 1%nat; Unregister "a" "g1";
              Register "a" "g2" 2%nat; Register "a" "g1" 3%nat] in
  unregisters_are_safe ops init ∧ no_dangling (run_ops ops init).
Proof.
  cbv zeta.
  assert (H : unregisters_are_safe
                [Register "a" "g1" 1%nat; Unregister "a" "g1";
                 Register "a" "g2" 2%nat; Register "a" "g1" 3%nat] init).
  { cbn [unregisters_are_safe apply_op]. split_and!; try exact I.
    intros g'. rewrite register_client_run. cbn [fst].
    rewrite elem_of_members_registered. intros [Hin|[-> _]]; [|reflexivity].
    unfold members in Hin. cbn [vlans init] in Hin.
    rewrite lookup_empty in Hin. by apply not_elem_of_empty in Hin. }
  split; [exact H|].
  exact (no_dangling_when_unregisters_are_safe _ H).
Defined.

(** A sequence in which each [client_id] is always named with the same
    [vlan_id] is a case of it. *)
Lemma no_dangling_when_clients_keep_their_group ops :
  one_group_per_client ops → no_dangling (run_ops ops init).
Proof.
  induction ops as [|o ops IH] using rev_ind; intros Hone.
  - intros g c Hin. unfold members in Hin. simpl in Hin.
    rewrite lookup_empty in Hin. simpl in Hin. set_solver.
  - assert (Hprefix : one_group_per_client ops).
    { intros o1 o2 H1 H2. apply Hone; rewrite elem_of_app; auto. }
    specialize (IH Hprefix). rewrite run_ops_snoc.
    destruct o as [c0 g0 s|c0 g0]; [by apply register_keeps_no_dangling|].
    intros g c. simpl. rewrite unregister_client_run. simpl.
    rewrite elem_of_members_unregistered. intros [Hin Hnot].
    rewrite lookup_delete. destruct (decide (c0 = c)) as [<-|]; [|by eapply IH].
    destruct (run_ops_accounted ops g c0 Hin) as (o & Ho & Hc & Hg).
    exfalso. apply Hnot. split; [|reflexivity].
    rewrite <- Hg. apply (Hone o (Unregister c0 g0)); [|
      |done]; rewrite elem_of_app, ?list_elem_of_singleton; auto.
Qed.

Lemma no_dangling_when_clients_keep_their_group_witness :
  let ops := [Register "a" "g1" 1%nat; Register "b" "g1" 2%nat;
              Register "a" "g1" 3%nat; Unregister "a" "g1"] in
  one_group_per_client ops ∧ no_dangling (run_ops ops init).
Proof.
  cbv zeta.
  assert (H : one_group_per_client
    [Register "a" "g1" 1%nat; Register "b" "g1" 2%nat;
     Register "a" "g1" 3%nat; Unregister "a" "g1"]).
  { intros o1 o2 H1 H2 _.
    assert (Hg : ∀ o, o ∈ [Register "a" "g1" 1%nat; Register "b" "g1" 2%nat;
                           Register "a" "g1" 3%nat; Unregister "a" "g1"] →
                      op_vlan o = "g1").
    { intros o Ho. repeat (apply elem_of_cons in Ho as [->|Ho]; [reflexivity|]).
      by apply not_elem_of_nil in Ho. }
    by rewrite (Hg o1), (Hg o2). }
  split; [exact H|].
  exact (no_dangling_when_clients_keep_their_group _ H).
Defined.

(** C3, as stated, fails.  In the state reached by registering "a" in "g1",
    registering "a" again in "g2" and unregistering ("a", "g2"), the client
    "a" has no registry entry, and [unregister_client "a" "g1"] still takes
    "a" out of the set of "g1". *)
Lemma unregister_absent_alters_group :
  ¬ unregister_absent_is_noop
      (run_ops [Register "a" "g1" 1%nat; Register "a" "g2" 2%nat; Unregister "a" "g2"] init)
      "a" "g1".
Proof.
  unfold run_ops. cbn [fold_left apply_op].
  rewrite !register_client_run, unregister_client_run. cbn [fst].
  set (w0 := unregistered "a" "g2" _).
  assert (Hin : "a" ∈ members w0 "g1").
  { subst w0. rewrite elem_of_members_unregistered, !elem_of_members_registered.
    split; [|intros [? _]; discriminate]. left. by right. }
  intros H. destruct H as (_ & _ & Hv).
  - subst w0. unfold unregistered. cbn [clients emit set_vlans set_clients].
    apply lookup_delete_eq.
  - rewrite unregister_client_run in Hv. cbn [fst] in Hv.
    assert (Hout : "a" ∈ members (unregistered "a" "g1" w0) "g1").
    { unfold members. rewrite Hv. exact Hin. }
    apply elem_of_members_unregistered in Hout. tauto.
Qed.

(** C3, amended.  When [client_id] has no registry entry,
    [unregister_client client_id vlan_id] raises nothing and leaves the
    registry as it is.  In the directory it alters no group set but that of
    [vlan_id], from which it takes [client_id] out if it is still there; it
    keeps every key.  So when [client_id] is not in the set of [vlan_id]
    the call is a no-op on both dictionaries.  No socket is closed and the
    only event is the log line of the call. *)
Theorem unregister_client_without_registry_entry w c g :
  clients w !! c = None →
  let out := unregister_client c g w in
  out.2 = Ok tt
  ∧ clients out.1 = clients w
  ∧ (∀ g', g' ≠ g → vlans out.1 !! g' = vlans w !! g')
  ∧ members out.1 g = members w g ∖ {[c]}
  ∧ dom (vlans out.1) = dom (vlans w)
  ∧ (c ∉ members w g → vlans out.1 = vlans w)
  ∧ closed out.1 = closed w
  ∧ new_events w out.1 = [EvInfo (LogLeave c g)].
Proof.
  intros Hnone. cbv zeta. rewrite unregister_client_run. cbn [fst snd].
  split_and!.
  - reflexivity.
  - unfold unregistered. cbn [clients emit set_vlans set_clients].
    by apply delete_id.
  - intros g' Hne. unfold unregistered. cbn [vlans emit set_vlans set_clients].
    by apply lookup_alter_ne.
  - apply set_eq. intros x. rewrite elem_of_members_unregistered.
    rewrite elem_of_difference, elem_of_singleton. naive_solver.
  - unfold unregistered. cbn [vlans emit set_vlans set_clients].
    apply dom_alter_L.
  - intros Hnot. unfold unregistered. cbn [vlans emit set_vlans set_clients].
    rewrite alter_remove_member. unfold members in Hnot.
    destruct (vlans w !! g) as [group|]; [|reflexivity].
    simpl in Hnot. by rewrite bool_decide_false.
  - reflexivity.
  - unfold new_events, unregistered. cbn [trace emit set_vlans set_clients].
    apply drop_app_length.
Qed.

Lemma unregister_client_without_registry_entry_witness :
  let w := (register_client "b" "g" 1%nat init).1 in
  clients w !! "a" = None ∧
  (unregister_client "a" "g" w).2 = Ok tt ∧
  clients (unregister_client "a" "g" w).1 = clients w.
Proof.
  cbv zeta. rewrite register_client_run. cbn [fst].
  assert (H1 : clients (registered "b" "g" 1%nat init) !! "a" = None).
  { unfold registered. cbn [clients emit set_vlans set_clients init].
    by rewrite lookup_insert_ne, lookup_empty. }
  split; [exact H1|].
  pose proof (unregister_client_without_registry_entry _ "a" "g" H1) as P.
  cbv zeta in P. tauto.
Defined.

(** The call is idempotent in every state: made a second time with the
    same arguments, it changes neither dictionary. *)
Lemma unregister_client_idempotent w c g :
  let w1 := (unregister_client c g w).1 in
  let out := unregister_client c g w1 in
  out.2 = Ok tt ∧ clients out.1 = clients w1 ∧ vlans out.1 = vlans w1.
Proof.
  cbv zeta. rewrite !unregister_client_run. cbn [fst snd].
  split_and!; [reflexivity| |].
  - unfold unregistered. cbn [clients emit set_vlans set_clients].
    apply delete_id, lookup_delete_eq.
  - unfold unregistered. cbn [vlans emit set_vlans set_clients].
    apply map_eq. intros k. destruct (decide (g = k)) as [<-|Hne].
    + rewrite !lookup_alter_eq. destruct (vlans w !! g) as [group|]; [|reflexivity].
      cbn. f_equal. set_solver.
    + by rewrite !lookup_alter_ne.
Qed.

(** ** Start-up *)

Lemma start_run os q :
  0 ≤ q ≤ 65535 →
  start os (fresh_listener q) =
  if port_free os q then
    if listen_ok os q then
      ({| port := q; bound_to := Some q; listening := true;
          startup_trace := [EvBind q; EvListen; EvInfo (LogListening q)] |}, Blocked)
    else
      ({| port := q + 1; bound_to := Some q; listening := false;
          startup_trace := [EvBind q; EvListen; EvError (LogStartError OSError);
                            EvInfo LogTryOtherPort; EvBind (q + 1)] |},
       Raise (if (q + 1 <? 0) || (65535 <? q + 1) then OverflowError else OSError))
  else if (q + 1 <? 0) || (65535 <? q + 1) then
    ({| port := q + 1; bound_to := None; listening := false;
        startup_trace := [EvBind q; EvError (LogStartError OSError);
                          EvInfo LogTryOtherPort; EvBind (q + 1)] |},
     Raise OverflowError)
  else if port_free os (q + 1) then
    if listen_ok os (q + 1) then
      ({| port := q + 1; bound_to := Some (q + 1); listening := true;
          startup_trace := [EvBind q; EvError (LogStartError OSError);
                            EvInfo LogTryOtherPort; EvBind (q + 1); EvListen;
                            EvInfo (LogListening (q + 1))] |}, Blocked)
    else
      ({| port := q + 1; bound_to := Some (q + 1); listening := false;
          startup_trace := [EvBind q; EvError (LogStartError OSError);
                            EvInfo LogTryOtherPort; EvBind (q + 1); EvListen] |},
       Raise OSError)
  else
    ({| port := q + 1; bound_to := None; listening := false;
        startup_trace := [EvBind q; EvError (LogStartError OSError);
                          EvInfo LogTryOtherPort; EvBind (q + 1)] |},
     Raise OSError).
Proof.
  intros Hq.
  assert (Hin : (q <? 0) || (65535 <? q) = false) by lia.
  unfold start, fresh_listener, Py.try_except, Py.bind, Py.gets, Py.get, Py.block,
    bind_socket, listen_socket, note, Py.modify, Py.raise, Py.bind.
  destruct (port_free os q) eqn:F1, (listen_ok os q) eqn:L1,
    ((q + 1 <? 0) || (65535 <? q + 1)) eqn:B,
    (port_free os (q + 1)) eqn:F2, (listen_ok os (q + 1)) eqn:L2;
    repeat (cbn -[Z.ltb Z.add orb]; rewrite ?Hin, ?F1, ?L1, ?B, ?F2, ?L2);
    reflexivity.
Qed.

(** C8.  [start] first binds the configured port.  When that works no other
    port is tried.  When the port is taken, [self.port] goes up by exactly
    one and a second bind is made on that port, and never a third; if the
    second bind fails too, [start] ends with an exception before the accept
    loop and the socket is not listening.  With the default configuration
    the two ports are 5000 and 5001. *)
Theorem start_retries_the_next_port_once os cfg :
  let l0 := new_listener cfg in
  let p := port l0 in
  0 ≤ p ≤ 65535 →
  let out := start os l0 in
  let binds := bind_attempts (startup_trace out.1) in
  port (new_listener None) = 5000
  ∧ head binds = Some p
  ∧ (length binds ≤ 2)%nat
  ∧ (port_free os p = true → listen_ok os p = true →
       binds = [p] ∧ out.2 = Blocked ∧ port out.1 = p ∧
       bound_to out.1 = Some p ∧ listening out.1 = true)
  ∧ (port_free os p = false →
       binds = [p; p + 1] ∧ port out.1 = p + 1 ∧
       (port_free os (p + 1) = false ∨ 65535 < p + 1 →
          (∃ e, out.2 = Raise e) ∧ listening out.1 = false ∧ bound_to out.1 = None) ∧
       (port_free os (p + 1) = true → p + 1 ≤ 65535 → listen_ok os (p + 1) = true →
          out.2 = Blocked ∧ bound_to out.1 = Some (p + 1) ∧ listening out.1 = true)).
Proof.
  intros l0 p Hp. subst l0 p.
  change (new_listener cfg) with (fresh_listener (default default_port cfg)) in *.
  cbn [fresh_listener port] in Hp. cbn [fresh_listener port].
  generalize dependent (default default_port cfg). intros q Hq.
  cbv zeta. rewrite (start_run os q Hq).
  split; [reflexivity|].
  destruct (port_free os q) eqn:Hfree.
  - destruct (listen_ok os q) eqn:Hlisten; cbn -[Z.add];
      split_and!; try done; try lia.
  - destruct ((q + 1 <? 0) || (65535 <? q + 1)) eqn:Hbig.
    + cbn -[Z.add].
      split_and!; try done; try lia. intros _.
      split_and!; try done; try lia. intros _. eauto.
    + destruct (port_free os (q + 1)) eqn:Hfree2;
        [destruct (listen_ok os (q + 1)) eqn:Hlisten2|]; cbn -[Z.add];
        (split_and!; try done; try lia; intros _; split_and!; try done; try lia);
        try (intros [?|?]; (done || lia)); try (intros _; eauto).
Qed.

(** ** The connection handler *)

Lemma cleanups_app e1 e2 : cleanups (e1 ++ e2) = cleanups e1 ++ cleanups e2.
Proof. apply bind_app. Qed.

Lemma cleanups_broadcast w g m sender : cleanups (broadcast_events w g m sender) = [].
Proof.
  unfold cleanups, broadcast_events.
  induction (elements _) as [|c xs IH]; [reflexivity|].
  rewrite bind_cons, bind_app, IH, app_nil_r.
  unfold turn, delivery. destruct (addressed _ _ _); [|reflexivity].
  destruct (clients w !! c); [|reflexivity].
  by destruct (bool_decide _).
Qed.

Lemma with_server_twice w1 w2 f : with_server w2 (with_server w1 f) = with_server w2 f.
Proof. reflexivity. Qed.

(** The loop from a registered handler up to the read that ends it: it
    does end, normally or by an exception, having added only events that
    are not clean-up events, and it leaves the two dictionaries, the closed
    sockets and the handler's variables as they were. *)
Lemma relay_loop_run client_socket c g msgs t after f :
  loc_client_id f = Some c → loc_vlan_id f = Some g →
  forallb is_message msgs = true → is_message t = false →
  ∃ evs r,
    relay_loop client_socket (msgs ++ t :: after) f
      = (with_server (add_events evs (server f)) f, r)
    ∧ r ≠ Blocked
    ∧ cleanups evs = [].
Proof.
  intros Hc Hg. revert f Hc Hg.
  induction msgs as [|m msgs IH]; intros f Hc Hg Hmsgs Ht.
  - cbn [app relay_loop].
    unfold Py.bind, Py.try_except, recv_decode, json_loads, load, self, Py.lift,
      Py.ret, Py.raise, logger_error, Py.modify.
    destruct t as [e|[| |v]]; try discriminate; cbn.
    + destruct (is_JSONDecodeError e); cbn.
      * exists [EvError LogInvalidJson], (Ok tt). by split_and!.
      * exists [], (Raise e). rewrite add_events_nil. by destruct f.
    + exists [], (Ok tt). rewrite add_events_nil. by destruct f.
    + exists [EvError LogInvalidJson], (Ok tt). by split_and!.
  - cbn [forallb] in Hmsgs. apply andb_prop in Hmsgs as [Hm Hmsgs].
    destruct m as [e|[| |v]]; try discriminate.
    rewrite <- app_comm_cons, (relay_loop_message _ _ _ _ c g Hc Hg).
    rewrite broadcast_to_vlan_run. cbn [fst].
    destruct (IH (with_server (add_events (broadcast_events (server f) g v c) (server f)) f)
                Hc Hg Hmsgs Ht) as (evs & r & Hrun & Hr & Hquiet).
    exists (broadcast_events (server f) g v c ++ evs), r. split_and!; [|done|].
    + rewrite Hrun. cbn [server with_server].
      by rewrite add_events_app, with_server_twice.
    + by rewrite cleanups_app, cleanups_broadcast, Hquiet.
Qed.

Lemma handle_client_guarded client_socket inbox :
  handle_client client_socket inbox = guarded client_socket (handler_body client_socket inbox).
Proof. reflexivity. Qed.

(** After a good registration the handler is in its loop, with both
    variables bound and the client registered. *)
Lemma handler_body_registered client_socket r c g rest w :
  well_formed_registration r c g →
  handler_body client_socket (r :: rest) (enter w) =
  relay_loop client_socket rest
    {| server := registered c g client_socket w;
       loc_client_id := Some c; loc_vlan_id := Some g |}.
Proof.
  intros (m & -> & Hc & Hg).
  unfold handler_body, Py.bind, recv_decode, json_loads, getitem, Py.ret.
  rewrite Hc. unfold store_client_id, Py.modify. rewrite Hg.
  unfold store_vlan_id, Py.modify, load, self, Py.lift.
  cbn -[relay_loop]. rewrite register_client_run. reflexivity.
Qed.

(** A first read that is not a registration makes the body raise before
    [vlan_id] is assigned and before anything is registered. *)
Lemma handler_body_rejected client_socket r rest w :
  (∀ c g, ¬ well_formed_registration r c g) →
  ∃ e f, handler_body client_socket (r :: rest) (enter w) = (f, Raise e)
         ∧ server f = w ∧ loc_vlan_id f = None.
Proof.
  intros Hbad.
  unfold handler_body, Py.bind, recv_decode, json_loads, getitem, Py.ret, Py.raise.
  destruct r as [e|[| |v]]; [by eauto..|].
  destruct v as [ | | | | |m]; [by eauto..|].
  destruct (m !! "client_id") as [c|] eqn:Hc; [|by eauto].
  unfold store_client_id, Py.modify.
  destruct (m !! "vlan_id") as [g|] eqn:Hg; [|by eauto].
  exfalso. apply (Hbad c g). by exists m.
Qed.

Lemma run_handler_rejected client_socket r rest w :
  (∀ c g, ¬ well_formed_registration r c g) →
  ∃ e, run_handler client_socket (r :: rest) w
       = (emit (EvError (LogHandlerError e)) w, Raise UnboundLocalError).
Proof.
  intros Hbad.
  destruct (handler_body_rejected client_socket r rest w Hbad)
    as (e & [wf cf vf] & Hrun & Hw & Hv).
  cbn in Hw, Hv. subst wf vf. exists e.
  unfold run_handler. rewrite handle_client_guarded.
  unfold guarded, Py.try_finally, Py.try_except. rewrite Hrun.
  cbn [is_Exception]. unfold self, Py.lift, logger_error, Py.modify, Py.bind, load.
  cbn. by destruct cf.
Qed.

(** The whole run of a handler that registers as [(c, g)], relays, and
    meets a read that ends its loop. *)
Lemma run_handler_registered client_socket r c g msgs t after w :
  well_formed_registration r c g →
  forallb is_message msgs = true → is_message t = false →
  ∃ evs, cleanups evs = [] ∧
    run_handler client_socket (r :: msgs ++ t :: after) w
    = (set_closed (λ cl, {[client_socket]} ∪ cl)
         (emit (EvClose client_socket)
            (unregistered c g (add_events evs (registered c g client_socket w)))),
       Ok tt).
Proof.
  intros Hreg Hmsgs Ht. unfold run_handler.
  rewrite handle_client_guarded.
  unfold guarded, Py.try_finally, Py.try_except.
  rewrite (handler_body_registered _ _ c g _ _ Hreg).
  set (f1 := {| server := registered c g client_socket w;
                loc_client_id := Some c; loc_vlan_id := Some g |}).
  destruct (relay_loop_run client_socket c g msgs t after f1 eq_refl eq_refl Hmsgs Ht)
    as (evs & r0 & Hrun & Hr0 & Hquiet).
  rewrite Hrun. destruct r0 as [[]|e|]; [| |done].
  - exists evs. split; [done|].
    unfold Py.bind, load, self, Py.lift, close, Py.modify. cbn -[unregister_client].
    rewrite unregister_client_run. reflexivity.
  - exists (evs ++ [EvError (LogHandlerError e)]). split.
    { by rewrite cleanups_app, Hquiet. }
    cbn [is_Exception].
    unfold Py.bind, load, self, Py.lift, close, logger_error, Py.modify.
    cbn -[unregister_client]. rewrite unregister_client_run. cbn.
    f_equal. unfold unregistered, emit, set_closed, set_vlans, set_clients; cbn.
    f_equal. by rewrite <- !app_assoc.
Qed.

Lemma new_events_emit e w : new_events w (emit e w) = [e].
Proof. unfold new_events. cbn. apply drop_app_length. Qed.

(** C5.  What the handler does when the first read is not a registration
    (the read fails, the text is empty or not JSON, or the document lacks
    [client_id] or [vlan_id]): nothing is registered, and the two
    dictionaries are as before; but the [finally] suite reads a variable
    that was never assigned, so [handle_client] ends with
    [UnboundLocalError] and [client_socket.close()] is not reached. *)
Theorem handler_rejects_bad_registration_without_closing client_socket r rest w :
  (∀ c g, ¬ well_formed_registration r c g) →
  let out := run_handler client_socket (r :: rest) w in
  clients out.1 = clients w
  ∧ vlans out.1 = vlans w
  ∧ out.2 = Raise UnboundLocalError
  ∧ closed out.1 = closed w
  ∧ (∀ s, EvClose s ∉ new_events w out.1).
Proof.
  intros Hbad. cbv zeta.
  destruct (run_handler_rejected client_socket r rest w Hbad) as (e & ->).
  cbn [fst snd]. split_and!; try reflexivity.
  intros s. rewrite new_events_emit.
  intros Hin. apply list_elem_of_singleton in Hin. discriminate.
Qed.

Lemma handler_rejects_bad_registration_witness :
  (∀ c g, ¬ well_formed_registration (RecvText NotJson) c g) ∧
  (run_handler 7%nat [RecvText NotJson] init).2 = Raise UnboundLocalError ∧
  closed (run_handler 7%nat [RecvText NotJson] init).1 = closed init.
Proof.
  assert (H : ∀ c g, ¬ well_formed_registration (RecvText NotJson) c g).
  { intros c g (m & Hm & _). discriminate. }
  split; [exact H|].
  pose proof (handler_rejects_bad_registration_without_closing 7%nat _ [] init H) as P.
  cbv zeta in P. tauto.
Defined.

(** C6.  After a registration as [(c, g)], however the loop of
    [handle_client] comes to its end (the empty read of a closed peer, text
    that is not JSON, an exception of [recv]), after any number of relayed
    messages: the handler returns normally; among its events there is one
    call of [unregister_client], for [(c, g)], and then one [close()], of
    the handler's socket, and these two are its last events; the socket is
    closed and the dictionaries are those the registration and the one
    unregistration give, the same for every way out. *)
Theorem handler_cleans_up_once client_socket r c g msgs t after w :
  well_formed_registration r c g →
  forallb is_message msgs = true → is_message t = false →
  let out := run_handler client_socket (r :: msgs ++ t :: after) w in
  let evs := new_events w out.1 in
  out.2 = Ok tt
  ∧ cleanups evs = [EvInfo (LogLeave c g); EvClose client_socket]
  ∧ (∃ earlier, evs = earlier ++ [EvInfo (LogLeave c g); EvClose client_socket])
  ∧ client_socket ∈ closed out.1
  ∧ (let w' := (unregister_client c g (register_client c g client_socket w).1).1 in
     clients out.1 = clients w' ∧ vlans out.1 = vlans w').
Proof.
  intros Hreg Hmsgs Ht. cbv zeta.
  rewrite register_client_run, unregister_client_run. cbn [fst].
  destruct (run_handler_registered client_socket r c g msgs t after w Hreg Hmsgs Ht)
    as (evs & Hquiet & ->).
  cbn [fst snd].
  assert (Hev : new_events w
      (set_closed (λ cl, {[client_socket]} ∪ cl)
         (emit (EvClose client_socket)
            (unregistered c g (add_events evs (registered c g client_socket w)))))
    = ([EvInfo (LogJoin c g)] ++ evs)
        ++ [EvInfo (LogLeave c g); EvClose client_socket]).
  { unfold new_events. cbn. rewrite <- !app_assoc. by rewrite drop_app_length. }
  rewrite Hev. split_and!.
  - reflexivity.
  - rewrite !cleanups_app, Hquiet. reflexivity.
  - by eexists.
  - cbn. set_solver.
  - reflexivity.
  - reflexivity.
Qed.

Lemma handler_cleans_up_once_witness :
  let r := RecvText (Document (JObj {[ "client_id" := "a"; "vlan_id" := "g" ]})) in
  let out := run_handler 7%nat (r :: [RecvText (Document (JStr "hi"))] ++ RecvText Empty :: []) init in
  well_formed_registration r "a" "g"
  ∧ out.2 = Ok tt
  ∧ cleanups (new_events init out.1) = [EvInfo (LogLeave "a" "g"); EvClose 7%nat].
Proof.
  cbv zeta.
  assert (H : well_formed_registration
                (RecvText (Document (JObj {[ "client_id" := "a"; "vlan_id" := "g" ]})))
                "a" "g").
  { eexists. split; [reflexivity|]. split; reflexivity. }
  split; [exact H|].
  pose proof (handler_cleans_up_once 7%nat _ "a" "g"
                [RecvText (Document (JStr "hi"))] (RecvText Empty) [] init
                H eq_refl eq_refl) as P.
  cbv zeta in P. tauto.
Defined.

Lemma start_retries_the_next_port_once_witness :
  let os := {| port_free := λ p, p =? 5001; listen_ok := λ _, true |} in
  let out := start os (new_listener None) in
  0 ≤ port (new_listener None) ≤ 65535
  ∧ bind_attempts (startup_trace out.1) = [5000; 5001]
  ∧ out.2 = Blocked.
Proof.
  cbv zeta.
  assert (H : 0 ≤ port (new_listener None) ≤ 65535) by (cbn; unfold default_port; lia).
  split; [exact H|].
  pose proof (start_retries_the_next_port_once
                {| port_free := λ p, p =? 5001; listen_ok := λ _, true |} None H) as P.
  cbv zeta in P. destruct P as (_ & _ & _ & _ & P).
  destruct (P eq_refl) as (Hb & _ & _ & Hup).
  split; [exact Hb|]. destruct (Hup eq_refl) as (Hr & _); [cbn; unfold default_port; lia|reflexivity|].
  exact Hr.
Defined.

(** ** Scenarios *)

(** A and B are in "floor1" and C is in "floor2"; A sends a message: B is
    the only one it is written to. *)
Example relay_reaches_the_other_member :
  let w := run_ops [Register "A" "floor1" 1%nat; Register "B" "floor1" 2%nat;
                    Register "C" "floor2" 3%nat] init in
  let out := broadcast_to_vlan "floor1" (JObj {[ "msg" := "hi" ]}) "A" w in
  out.2 = Ok tt ∧
  new_events w out.1 = [EvSend "B" 2%nat (JObj {[ "msg" := "hi" ]})].
Proof. vm_compute. split; reflexivity. Qed.

(** B has left before A sends: nothing is written and nothing raised. *)
Example relay_after_the_other_member_left :
  let w := run_ops [Register "A" "floor1" 1%nat; Register "B" "floor1" 2%nat;
                    Unregister "B" "floor1"] init in
  let out := broadcast_to_vlan "floor1" (JObj {[ "msg" := "hi" ]}) "A" w in
  out.2 = Ok tt ∧ new_events w out.1 = [].
Proof. vm_compute. split; reflexivity. Qed.

(** The same identifier registered in two groups is in both sets and has
    one registry entry, the later one: it is served as a member of either
    group on that connection. *)
Example relay_to_an_identifier_in_two_groups :
  let w := run_ops [Register "a" "g1" 1%nat; Register "a" "g2" 2%nat] init in
  let out := broadcast_to_vlan "g1" (JStr "hi") "b" w in
  out.2 = Ok tt ∧ new_events w out.1 = [EvSend "a" 2%nat (JStr "hi")].
Proof. vm_compute. split; reflexivity. Qed.

(** A whole handler: registration, one message relayed to the member that
    is there, the peer closes. *)
Example handler_session :
  let w := run_ops [Register "A" "floor1" 1%nat] init in
  let inbox := [RecvText (Document (JObj {[ "client_id" := "B"; "vlan_id" := "floor1" ]}));
                RecvText (Document (JStr "hi")); RecvText Empty] in
  let out := run_handler 2%nat inbox w in
  out.2 = Ok tt ∧
  new_events w out.1 =
    [EvInfo (LogJoin "B" "floor1"); EvSend "A" 1%nat (JStr "hi");
     EvInfo (LogLeave "B" "floor1"); EvClose 2%nat].
Proof. vm_compute. split; reflexivity. Qed.

(** A first read that is not JSON: the error is logged, the [finally]
    suite raises, and the socket is never closed. *)
Example handler_on_garbage :
  let out := run_handler 7%nat [RecvText NotJson] init in
  out.2 = Raise UnboundLocalError ∧
  trace out.1 = [EvError (LogHandlerError JSONDecodeError)] ∧
  elements (closed out.1) = [].
Proof. vm_compute. split_and!; reflexivity. Qed.

(** A registration without [vlan_id]: [client_id] is bound, [vlan_id] is
    not, and the outcome is the same. *)
Example handler_on_partial_registration :
  let out := run_handler 7%nat
               [RecvText (Document (JObj {[ "client_id" := "B" ]}))] init in
  out.2 = Raise UnboundLocalError ∧
  trace out.1 = [EvError (LogHandlerError KeyError)] ∧
  elements (closed out.1) = [].
Proof. vm_compute. split_and!; reflexivity. Qed.

(** The default port is taken and the next one is free. *)
Example start_on_busy_default_port :
  let os := {| port_free := λ p, p =? 5001; listen_ok := λ _, true |} in
  let out := start os (new_listener None) in
  out.2 = Blocked ∧
  startup_trace out.1 =
    [EvBind 5000; EvError (LogStartError OSError); EvInfo LogTryOtherPort;
     EvBind 5001; EvListen; EvInfo (LogListening 5001)].
Proof. vm_compute. split; reflexivity. Qed.

(** Both ports are taken: the second [OSError] leaves [start]. *)
Example start_on_two_busy_ports :
  let os := {| port_free := λ _, false; listen_ok := λ _, true |} in
  let out := start os (new_listener None) in
  out.2 = Raise OSError ∧ listening out.1 = false ∧
  bind_attempts (startup_trace out.1) = [5000; 5001].
Proof. vm_compute. split_and!; reflexivity. Qed.

(** * Further properties of the server *)

(** ** Whole sessions of a handler *)

Lemma broadcast_events_add_events evs w g m c :
  broadcast_events (add_events evs w) g m c = broadcast_events w g m c.
Proof. reflexivity. Qed.

(** The loop passes over a run of messages by broadcasting each. *)
Lemma relay_loop_messages client_socket c g docs rest f :
  loc_client_id f = Some c → loc_vlan_id f = Some g →
  relay_loop client_socket (messages docs ++ rest) f =
  relay_loop client_socket rest
    (with_server
       (add_events (docs ≫= λ m, broadcast_events (server f) g m c) (server f)) f).
Proof.
  intros Hc Hg. revert f Hc Hg.
  induction docs as [|m docs IH]; intros f Hc Hg.
  - cbn [messages fmap list_fmap app mbind list_bind].
    rewrite add_events_nil. by destruct f.
  - change (messages (m :: docs) ++ rest)
      with (RecvText (Document m) :: (messages docs ++ rest)).
    rewrite (relay_loop_message _ _ _ _ c g Hc Hg), broadcast_to_vlan_run. cbn [fst].
    rewrite IH by exact Hc || exact Hg. cbn [server with_server].
    by rewrite bind_cons, add_events_app.
Qed.

Lemma relay_loop_end client_socket t after f :
  is_message t = false →
  relay_loop client_socket (t :: after) f =
  (with_server (add_events (loop_outcome t).1 (server f)) f, (loop_outcome t).2).
Proof.
  intros Ht. cbn [relay_loop].
  unfold Py.bind, Py.try_except, recv_decode, json_loads, load, self, Py.lift,
    Py.ret, Py.raise, logger_error, Py.modify.
  destruct t as [e|[| |v]]; try discriminate; cbn.
  - destruct (is_JSONDecodeError e); cbn; [reflexivity|].
    rewrite add_events_nil. by destruct f.
  - rewrite add_events_nil. by destruct f.
  - reflexivity.
Qed.

Lemma relay_loop_waiting client_socket f : relay_loop client_socket [] f = (f, Blocked).
Proof. reflexivity. Qed.

(** A handler that has registered and relayed [docs] and waits for more. *)
Lemma run_handler_waiting client_socket r c g docs w :
  well_formed_registration r c g →
  run_handler client_socket (r :: messages docs) w =
  (add_events (docs ≫= λ m, broadcast_events (registered c g client_socket w) g m c)
     (registered c g client_socket w), Blocked).
Proof.
  intros Hreg. unfold run_handler. rewrite handle_client_guarded.
  unfold guarded, Py.try_finally, Py.try_except.
  rewrite (handler_body_registered _ _ c g _ _ Hreg).
  rewrite <- (app_nil_r (messages docs)).
  rewrite (relay_loop_messages _ c g docs []) by reflexivity.
  rewrite relay_loop_waiting. reflexivity.
Qed.

(** A handler from its registration to the end of its clean-up. *)
Lemma run_handler_session client_socket r c g docs t after w :
  well_formed_registration r c g → is_message t = false →
  run_handler client_socket (r :: messages docs ++ t :: after) w =
  (set_closed (λ cl, {[client_socket]} ∪ cl)
     (emit (EvClose client_socket)
        (unregistered c g
           (add_events
              ((docs ≫= λ m, broadcast_events (registered c g client_socket w) g m c)
                 ++ exit_log t)
              (registered c g client_socket w)))),
   Ok tt).
Proof.
  intros Hreg Ht. unfold run_handler. rewrite handle_client_guarded.
  unfold guarded, Py.try_finally, Py.try_except.
  rewrite (handler_body_registered _ _ c g _ _ Hreg).
  rewrite (relay_loop_messages _ c g docs) by reflexivity.
  rewrite (relay_loop_end _ _ _ _ Ht). cbn [server with_server].
  rewrite add_events_app.
  destruct t as [e|[| |v]]; try discriminate; cbn [loop_outcome exit_log fst snd].
  - destruct (is_JSONDecodeError e); cbn [fst snd is_Exception].
    + unfold Py.bind, load, self, Py.lift, close, Py.modify. cbn -[unregister_client].
      rewrite unregister_client_run. reflexivity.
    + unfold Py.bind, load, self, Py.lift, close, logger_error, Py.modify.
      cbn -[unregister_client]. rewrite unregister_client_run.
      rewrite app_nil_r. cbn. f_equal.
      unfold unregistered, emit, set_closed, set_vlans, set_clients; cbn.
      f_equal. by rewrite <- !app_assoc.
  - unfold Py.bind, load, self, Py.lift, close, Py.modify. cbn -[unregister_client].
    rewrite unregister_client_run. reflexivity.
  - unfold Py.bind, load, self, Py.lift, close, Py.modify. cbn -[unregister_client].
    rewrite unregister_client_run. reflexivity.
Qed.


Lemma cleanups_exit_log t : cleanups (exit_log t) = [].
Proof. destruct t as [e|[| |v]]; try reflexivity. cbn. by destruct (is_JSONDecodeError e). Qed.

Lemma new_events_session client_socket c g evs w :
  new_events w
    (set_closed (λ cl, {[client_socket]} ∪ cl)
       (emit (EvClose client_socket)
          (unregistered c g (add_events evs (registered c g client_socket w)))))
  = [EvInfo (LogJoin c g)] ++ evs ++ [EvInfo (LogLeave c g); EvClose client_socket].
Proof.
  unfold new_events. cbn. rewrite <- !app_assoc. by rewrite drop_app_length.
Qed.





Lemma members_add_events evs w g : members (add_events evs w) g = members w g.
Proof. reflexivity. Qed.

Lemma elem_of_members_session client_socket c g evs w g' c' :
  c' ∈ members
         (set_closed (λ cl, {[client_socket]} ∪ cl)
            (emit (EvClose client_socket)
               (unregistered c g (add_events evs (registered c g client_socket w))))) g'
  ↔ c' ∈ members w g' ∧ ¬ (g' = g ∧ c' = c).
Proof.
  change (c' ∈ members (unregistered c g
                          (add_events evs (registered c g client_socket w))) g'
          ↔ c' ∈ members w g' ∧ ¬ (g' = g ∧ c' = c)).
  rewrite elem_of_members_unregistered.
  change (members (add_events evs (registered c g client_socket w)) g')
    with (members (registered c g client_socket w) g').
  rewrite elem_of_members_registered. tauto.
Qed.

(** X3.  A session of a client that was not registered before leaves the
    registry and every group set as they were when the connection came. *)
Theorem handler_session_restores_the_registry client_socket r c g docs t after w :
  well_formed_registration r c g → is_message t = false →
  clients w !! c = None → c ∉ members w g →
  let out := run_handler client_socket (r :: messages docs ++ t :: after) w in
  clients out.1 = clients w ∧ (∀ g', members out.1 g' = members w g').
Proof.
  intros Hreg Ht Hnone Hnot. cbv zeta.
  rewrite (run_handler_session _ _ c g _ _ _ _ Hreg Ht). cbn [fst]. split.
  - cbn. rewrite delete_insert_eq. by apply delete_id.
  - intros g'. apply set_eq. intros c'. rewrite elem_of_members_session.
    split; [tauto|]. intros Hin. split; [done|]. intros [-> ->]. done.
Qed.

Lemma handler_session_restores_the_registry_witness :
  let r := RecvText (Document (JObj {[ "client_id" := "a"; "vlan_id" := "g" ]})) in
  let out := run_handler 7%nat (r :: messages [] ++ RecvText Empty :: []) init in
  well_formed_registration r "a" "g"
  ∧ is_message (RecvText Empty) = false
  ∧ clients init !! "a" = None
  ∧ ("a" ∉ members init "g")
  ∧ clients out.1 = clients init.
Proof.
  cbv zeta.
  assert (H : well_formed_registration
                (RecvText (Document (JObj {[ "client_id" := "a"; "vlan_id" := "g" ]})))
                "a" "g").
  { eexists. split; [reflexivity|]. split; reflexivity. }
  assert (H1 : clients init !! "a" = None) by apply lookup_empty.
  assert (H2 : "a" ∉ members init "g").
  { unfold members. cbn [vlans init]. rewrite lookup_empty. apply not_elem_of_empty. }
  split; [exact H|]. split; [reflexivity|]. split; [exact H1|]. split; [exact H2|].
  exact (proj1 (handler_session_restores_the_registry 7%nat _ "a" "g" []
                  (RecvText Empty) [] init H eq_refl H1 H2)).
Defined.

(** X4.  A session under an identifier that another connection holds: when
    it ends, the identifier has no registry entry at all, so the earlier
    connection is no longer reachable, and that earlier socket has not been
    closed by it. *)
Theorem handler_session_evicts_the_earlier_connection
    client_socket r c g docs t after w s_old :
  well_formed_registration r c g → is_message t = false →
  clients w !! c = Some s_old → s_old ≠ client_socket →
  let out := run_handler client_socket (r :: messages docs ++ t :: after) w in
  clients out.1 !! c = None
  ∧ (s_old ∈ closed out.1 ↔ s_old ∈ closed w)
  ∧ (∀ s, EvClose s ∈ new_events w out.1 → s = client_socket).
Proof.
  intros Hreg Ht Hold Hne. cbv zeta.
  rewrite (run_handler_session _ _ c g _ _ _ _ Hreg Ht). cbn [fst]. split_and!.
  - cbn. apply lookup_delete_eq.
  - cbn. rewrite elem_of_union, elem_of_singleton. naive_solver.
  - intros s. rewrite new_events_session, !elem_of_app.
    intros [Hin|[[Hin|Hin]|Hin]].
    + apply list_elem_of_singleton in Hin. discriminate.
    + apply list_elem_of_bind in Hin as (m & Hin & _).
      apply elem_of_broadcast_events in Hin.
      destruct Hin as (c' & s' & _ & _ & _ & [?|[? _]]); discriminate.
    + destruct t as [e|[| |v]]; cbn in Hin; try (by apply not_elem_of_nil in Hin);
        try (apply list_elem_of_singleton in Hin; discriminate).
      destruct (is_JSONDecodeError e);
        apply list_elem_of_singleton in Hin; discriminate.
    + apply elem_of_cons in Hin as [Hin|Hin]; [discriminate|].
      apply list_elem_of_singleton in Hin. by injection Hin.
Qed.

Lemma handler_session_evicts_the_earlier_connection_witness :
  let r := RecvText (Document (JObj {[ "client_id" := "a"; "vlan_id" := "g" ]})) in
  let w := (register_client "a" "g" 1%nat init).1 in
  let out := run_handler 7%nat (r :: messages [] ++ RecvText Empty :: []) w in
  well_formed_registration r "a" "g"
  ∧ clients w !! "a" = Some 1%nat
  ∧ clients out.1 !! "a" = None.
Proof.
  cbv zeta.
  assert (H : well_formed_registration
                (RecvText (Document (JObj {[ "client_id" := "a"; "vlan_id" := "g" ]})))
                "a" "g").
  { eexists. split; [reflexivity|]. split; reflexivity. }
  assert (H1 : clients (register_client "a" "g" 1%nat init).1 !! "a" = Some 1%nat).
  { rewrite register_client_run. cbn. apply lookup_insert_eq. }
  split; [exact H|]. split; [exact H1|].
  exact (proj1 (handler_session_evicts_the_earlier_connection 7%nat _ "a" "g" []
                  (RecvText Empty) [] _ 1%nat H eq_refl H1 ltac:(lia))).
Defined.



(** ** Registry and directory, further *)

(** X6.  Registering a client that was not registered and unregistering it
    again gives back the registry and every group set; the directory itself
    is the same map when the group had a key, and has the group's key with
    the empty set when it had none. *)
Theorem register_then_unregister_restores w c g s :
  clients w !! c = None → c ∉ members w g →
  let w2 := (unregister_client c g (register_client c g s w).1).1 in
  clients w2 = clients w
  ∧ (∀ g', members w2 g' = members w g')
  ∧ (is_Some (vlans w !! g) → vlans w2 = vlans w)
  ∧ (vlans w !! g = None → vlans w2 = <[g := ∅]> (vlans w)).
Proof.
  intros Hnone Hnot. cbv zeta.
  rewrite register_client_run. cbn [fst]. rewrite unregister_client_run. cbn [fst].
  assert (Hm : ∀ g', members (unregistered c g (registered c g s w)) g' = members w g').
  { intros g'. apply set_eq. intros c'.
    rewrite elem_of_members_unregistered, elem_of_members_registered.
    split; [tauto|]. intros Hin. split; [by left|]. intros [-> ->]. done. }
  assert (Hv : vlans (unregistered c g (registered c g s w))
               = <[g := members w g]> (vlans w)).
  { cbn. apply map_eq. intros k. rewrite lookup_alter.
    destruct (decide (g = k)) as [<-|Hne].
    - rewrite !lookup_insert_eq. cbn. f_equal. set_solver.
    - by rewrite !lookup_insert_ne. }
  split_and!.
  - cbn. rewrite delete_insert_eq. by apply delete_id.
  - exact Hm.
  - intros [group Hg]. rewrite Hv. apply insert_id.
    unfold members. by rewrite Hg.
  - intros Hg. rewrite Hv. unfold members. by rewrite Hg.
Qed.

Lemma register_then_unregister_restores_witness :
  let w := (register_client "b" "g" 1%nat init).1 in
  clients w !! "a" = None ∧ ("a" ∉ members w "g") ∧
  vlans (unregister_client "a" "g" (register_client "a" "g" 2%nat w).1).1 = vlans w.
Proof.
  cbv zeta. rewrite (register_client_run "b").  cbn [fst].
  assert (H1 : clients (registered "b" "g" 1%nat init) !! "a" = None).
  { cbn. by rewrite lookup_insert_ne, lookup_empty. }
  assert (H2 : "a" ∉ members (registered "b" "g" 1%nat init) "g").
  { rewrite elem_of_members_registered. unfold members. cbn [vlans init].
    rewrite lookup_empty. cbn [default].
    intros [Hin|[_ ?]]; [by apply not_elem_of_empty in Hin | discriminate]. }
  split; [exact H1|]. split; [exact H2|].
  pose proof (register_then_unregister_restores _ "a" "g" 2%nat H1 H2) as P.
  cbv zeta in P. destruct P as (_ & _ & P & _). apply P.
  cbn. rewrite lookup_insert_eq. eauto.
Defined.

(** X7.  Starting from the empty dictionaries, after every finite sequence
    of [register_client] and [unregister_client] calls, with any arguments,
    whoever has a registry entry is in the set of some group. *)
Theorem registry_entries_have_a_group ops : no_orphan (run_ops ops init).
Proof.
  induction ops as [|o ops IH] using rev_ind.
  - intros c [s Hs]. cbn in Hs. by rewrite lookup_empty in Hs.
  - intros c. rewrite run_ops_snoc, apply_op_run. cbn [fst].
    destruct o as [c0 g0 s0|c0 g0].
    + intros Hc. destruct (decide (c = c0)) as [->|Hne].
      * exists g0. rewrite elem_of_members_registered. by right.
      * cbn in Hc. rewrite lookup_insert_ne in Hc by done.
        destruct (IH c Hc) as [g Hg]. exists g.
        rewrite elem_of_members_registered. by left.
    + cbn. rewrite lookup_delete. destruct (decide (c0 = c)) as [->|Hne].
      * intros [? ?]. discriminate.
      * intros Hc. destruct (IH c Hc) as [g Hg]. exists g.
        apply elem_of_members_unregistered. split; [done|]. intros [_ ->]. done.
Qed.

(** X8.  The two registry operations are local to their client and their
    group: the registry entry of every other client, the set of every other
    group and the membership of every other client in any group are the
    same after the call. *)
Theorem registry_operations_are_local w c g s c' :
  c' ≠ c →
  let w1 := (register_client c g s w).1 in
  let w2 := (unregister_client c g w).1 in
  clients w1 !! c' = clients w !! c'
  ∧ clients w2 !! c' = clients w !! c'
  ∧ (∀ g', (c' ∈ members w1 g' ↔ c' ∈ members w g')
           ∧ (c' ∈ members w2 g' ↔ c' ∈ members w g'))
  ∧ (∀ g', g' ≠ g → members w1 g' = members w g' ∧ vlans w2 !! g' = vlans w !! g').
Proof.
  intros Hne. cbv zeta. rewrite register_client_run, unregister_client_run.
  cbn [fst]. split_and!.
  - cbn. by rewrite lookup_insert_ne.
  - cbn. by rewrite lookup_delete_ne.
  - intros g'. rewrite elem_of_members_registered, elem_of_members_unregistered.
    naive_solver.
  - intros g' Hg. split.
    + apply set_eq. intros x. rewrite elem_of_members_registered. naive_solver.
    + cbn. by rewrite lookup_alter_ne.
Qed.

Lemma registry_operations_are_local_witness :
  "b" ≠ "a" ∧
  clients (register_client "a" "g" 1%nat init).1 !! "b" = clients init !! "b".
Proof.
  assert (H : "b" ≠ "a") by discriminate.
  split; [exact H|].
  exact (proj1 (registry_operations_are_local init "a" "g" 1%nat "b" H)).
Defined.

(** X9.  Once [unregister_client] has been called for a client, with
    whatever group, no broadcast in any group and from any sender attempts
    a delivery to that client, even where its identifier is still in a
    group set. *)
Theorem unregistered_client_is_never_served w c g G payload S :
  let w1 := (unregister_client c g w).1 in
  let out := broadcast_to_vlan G payload S w1 in
  ∀ s p, (c, s, p) ∉ attempts (new_events w1 out.1).
Proof.
  cbv zeta. rewrite unregister_client_run. cbn [fst]. intros s p.
  rewrite broadcast_to_vlan_run. cbn [fst]. rewrite new_events_add.
  rewrite elem_of_attempts_broadcast. intros (_ & _ & Hs & _).
  cbn in Hs. by rewrite lookup_delete_eq in Hs.
Qed.

(** X10.  After [register_client c g s], a broadcast in [g] from anyone
    else attempts a delivery to [c], and every delivery to [c], in whatever
    group, goes to the socket [s] of this last registration and to no
    earlier one. *)
Theorem registered_client_is_served_on_its_last_socket w c g s G payload S :
  S ≠ c →
  let w1 := (register_client c g s w).1 in
  (c, s, payload) ∈ attempts (new_events w1 (broadcast_to_vlan g payload S w1).1)
  ∧ (∀ s' p, (c, s', p) ∈ attempts (new_events w1 (broadcast_to_vlan G payload S w1).1) →
             s' = s).
Proof.
  intros Hne. cbv zeta. rewrite register_client_run. cbn [fst].
  rewrite !broadcast_to_vlan_run. cbn [fst]. rewrite !new_events_add. split.
  - apply elem_of_attempts_broadcast. split_and!; try done.
    + rewrite elem_of_members_registered. by right.
    + cbn. apply lookup_insert_eq.
  - intros s' p Hin. apply elem_of_attempts_broadcast in Hin.
    destruct Hin as (_ & _ & Hs & _). cbn in Hs.
    rewrite lookup_insert_eq in Hs. congruence.
Qed.

Lemma registered_client_is_served_on_its_last_socket_witness :
  "b" ≠ "a" ∧
  let w1 := (register_client "a" "g" 1%nat init).1 in
  ("a", 1%nat, JStr "hi")
    ∈ attempts (new_events w1 (broadcast_to_vlan "g" (JStr "hi") "b" w1).1).
Proof.
  assert (H : "b" ≠ "a") by discriminate.
  split; [exact H|].
  exact (proj1 (registered_client_is_served_on_its_last_socket
                  init "a" "g" 1%nat "g" (JStr "hi") "b" H)).
Defined.

(** ** Start-up, further *)

Lemma start_run_out_of_range os q :
  q < 0 ∨ 65535 < q →
  start os (fresh_listener q) =
  ({| port := q; bound_to := None; listening := false; startup_trace := [EvBind q] |},
   Raise OverflowError).
Proof.
  intros Hq.
  assert (Hout : (q <? 0) || (65535 <? q) = true) by lia.
  unfold start, fresh_listener, Py.try_except, Py.bind, Py.gets, Py.get, Py.block,
    bind_socket, listen_socket, note, Py.modify, Py.raise, Py.bind.
  cbn -[Z.ltb Z.add orb]. rewrite Hout. reflexivity.
Qed.

(** X11.  With a configured port outside 0..65535 the first [bind] raises
    [OverflowError], which the [except OSError] clause does not take:
    [start] ends with that exception after this one bind, with [self.port]
    unchanged, nothing logged and no second port tried. *)
Theorem start_does_not_retry_a_port_out_of_range os q :
  q < 0 ∨ 65535 < q →
  let out := start os (new_listener (Some q)) in
  out.2 = Raise OverflowError
  ∧ startup_trace out.1 = [EvBind q]
  ∧ port out.1 = q
  ∧ listening out.1 = false.
Proof.
  intros Hq. cbv zeta.
  change (new_listener (Some q)) with (fresh_listener q).
  by rewrite (start_run_out_of_range os q Hq).
Qed.

Lemma start_does_not_retry_a_port_out_of_range_witness :
  let os := {| port_free := λ _, true; listen_ok := λ _, true |} in
  (70000 < 0 ∨ 65535 < 70000) ∧
  (start os (new_listener (Some 70000))).2 = Raise OverflowError.
Proof.
  cbv zeta.
  assert (H : 70000 < 0 ∨ 65535 < 70000) by lia.
  split; [exact H|].
  exact (proj1 (start_does_not_retry_a_port_out_of_range
                  {| port_free := λ _, true; listen_ok := λ _, true |} 70000 H)).
Defined.

(** X12.  When the first [bind] works and [listen] then fails, the retry
    binds the same socket a second time, which cannot work: [start] ends
    with an exception whether or not the next port is free, with
    [self.port] one up while the socket is bound to the configured port and
    not listening. *)
Theorem start_does_not_recover_from_a_failed_listen os p :
  0 ≤ p ≤ 65535 → port_free os p = true → listen_ok os p = false →
  let out := start os (new_listener (Some p)) in
  (∃ e, out.2 = Raise e)
  ∧ bind_attempts (startup_trace out.1) = [p; p + 1]
  ∧ port out.1 = p + 1
  ∧ bound_to out.1 = Some p
  ∧ listening out.1 = false.
Proof.
  intros Hp Hfree Hlisten. cbv zeta.
  change (new_listener (Some p)) with (fresh_listener p).
  rewrite (start_run os p Hp), Hfree, Hlisten. cbn -[Z.add Z.ltb orb].
  split_and!; try reflexivity. eauto.
Qed.

Lemma start_does_not_recover_from_a_failed_listen_witness :
  let os := {| port_free := λ _, true; listen_ok := λ _, false |} in
  0 ≤ 5000 ≤ 65535 ∧
  bind_attempts (startup_trace (start os (new_listener (Some 5000))).1) = [5000; 5001] ∧
  listening (start os (new_listener (Some 5000))).1 = false.
Proof.
  cbv zeta.
  assert (H : 0 ≤ 5000 ≤ 65535) by lia.
  split; [exact H|].
  pose proof (start_does_not_recover_from_a_failed_listen
                {| port_free := λ _, true; listen_ok := λ _, false |} 5000 H
                eq_refl eq_refl) as P.
  cbv zeta in P. tauto.
Defined.


(** * Properties of the client *)

Module VLANClientFacts.
Import VLANClient.

Lemma connect_run net c :
  connect net c =
  if closed c || connected c then
    (emit (Error (ConnectFailed OSError))
       (emit (Connect (server_host c) (server_port c)) c), Ok false)
  else if server_accepts net then
    if writable net then
      (emit (Info (Connected (server_host c) (server_port c)))
         (push (registration_info c)
            (emit (Send (registration_info c))
               (set_connected (emit (Connect (server_host c) (server_port c)) c)))),
       Ok true)
    else
      (emit (Error (ConnectFailed OSError))
         (emit (Send (registration_info c))
            (set_connected (emit (Connect (server_host c) (server_port c)) c))),
       Ok false)
  else
    (emit (Error (ConnectFailed OSError))
       (emit (Connect (server_host c) (server_port c)) c), Ok false).
Proof.
  unfold connect, Py.try_except, Py.bind, socket_connect, socket_send, Py.get,
    Py.modify, Py.raise, Py.ret, logger_info, logger_error.
  cbn -[registration_info].
  destruct (closed c) eqn:Hcl, (connected c) eqn:Hco; cbn -[registration_info];
    try reflexivity.
  destruct (server_accepts net); cbn -[registration_info]; [|reflexivity].
  rewrite Hcl. cbn -[registration_info].
  destruct (writable net); reflexivity.
Qed.

Lemma send_message_run net m c :
  send_message net m c =
  if closed c || negb (connected c) then
    (emit (Error (SendFailed OSError)) (emit (Send m) c), Ok tt)
  else if writable net then (push m (emit (Send m) c), Ok tt)
  else (emit (Error (SendFailed OSError)) (emit (Send m) c), Ok tt).
Proof.
  unfold send_message, Py.try_except, Py.bind, socket_send, Py.get,
    Py.modify, Py.raise, Py.ret, logger_error. cbn.
  destruct (closed c || negb (connected c)); cbn; [reflexivity|].
  destruct (writable net); reflexivity.
Qed.

(** X14.  [connect] never raises.  It returns [True] exactly when the
    socket was neither closed nor connected, the server accepted and the
    write went through; then the socket has taken one more document, the
    registration with the client's [client_id] and [vlan_id], and no error
    is logged.  When it returns [False] one error is logged and the socket
    has taken nothing; in neither case is the socket closed. *)
Theorem connect_returns_whether_it_registered net c :
  let out := connect net c in
  out.2 = Ok (fresh c && server_accepts net && writable net)
  ∧ (out.2 = Ok true →
       outbox out.1 = outbox c ++ [registration_info c]
       ∧ connected out.1 = true
       ∧ errors (added c out.1) = [])
  ∧ (out.2 = Ok false →
       outbox out.1 = outbox c
       ∧ errors (added c out.1) = [ConnectFailed OSError])
  ∧ closed out.1 = closed c.
Proof.
  cbv zeta. rewrite connect_run. unfold fresh, added.
  destruct (closed c || connected c) eqn:Hbusy; cbn [negb andb fst snd].
  - split_and!; try done.
    + intros _. split; [reflexivity|]. cbn.
      by rewrite <- app_assoc, drop_app_length.
  - destruct (server_accepts net), (writable net); cbn [andb fst snd];
      (split_and!; [reflexivity | | | reflexivity]); try discriminate;
      intros _; (split_and!; try reflexivity); cbn;
      rewrite <- ?app_assoc; by rewrite drop_app_length.
Qed.

(** X15.  The socket of a client is connected at most once: after a
    [connect] during which the server accepted, whether it returned [True]
    or [False], every later [connect] returns [False], logs an error and
    gives the socket nothing to send, whatever the network does then. *)
Theorem connect_cannot_be_repeated net net' c :
  fresh c = true → server_accepts net = true →
  let c1 := (connect net c).1 in
  let out := connect net' c1 in
  out.2 = Ok false
  ∧ outbox out.1 = outbox c1
  ∧ errors (added c1 out.1) = [ConnectFailed OSError].
Proof.
  intros Hfresh Hacc. cbv zeta.
  assert (Hco : connected (connect net c).1 = true).
  { rewrite connect_run. unfold fresh in Hfresh.
    destruct (closed c || connected c); [discriminate|].
    rewrite Hacc. by destruct (writable net). }
  rewrite (connect_run net' (connect net c).1), Hco, orb_true_r.
  cbn [fst snd]. split_and!; try reflexivity.
  unfold added. cbn. by rewrite <- app_assoc, drop_app_length.
Qed.

Lemma connect_cannot_be_repeated_witness :
  let net := {| server_accepts := true; writable := false |} in
  let net' := {| server_accepts := true; writable := true |} in
  let c := new "a" "g" None None in
  fresh c = true ∧ server_accepts net = true ∧
  (connect net' (connect net c).1).2 = Ok false.
Proof.
  cbv zeta. split; [reflexivity|]. split; [reflexivity|].
  exact (proj1 (connect_cannot_be_repeated
                  {| server_accepts := true; writable := false |}
                  {| server_accepts := true; writable := true |}
                  (new "a" "g" None None) eq_refl eq_refl)).
Defined.

(** X16.  [send_message] never raises.  On a socket that is connected and
    not closed, with the write going through, the socket takes the message
    and nothing is logged; in every other case (never connected, closed,
    write failure) the socket takes nothing and one error is logged. *)
Theorem send_message_never_raises net m c :
  let out := send_message net m c in
  out.2 = Ok tt
  ∧ (usable c && writable net = true →
       outbox out.1 = outbox c ++ [m] ∧ errors (added c out.1) = [])
  ∧ (usable c && writable net = false →
       outbox out.1 = outbox c ∧ errors (added c out.1) = [SendFailed OSError])
  ∧ closed out.1 = closed c
  ∧ connected out.1 = connected c.
Proof.
  cbv zeta. rewrite send_message_run. unfold usable, added.
  destruct (closed c || negb (connected c)); cbn [negb andb];
    [|destruct (writable net)]; cbn [fst snd];
    (split_and!; try reflexivity; try discriminate; intros _; split; try reflexivity;
     cbn; rewrite <- ?app_assoc; by rewrite drop_app_length).
Qed.

Lemma log_all_cons m docs c :
  log_all (m :: docs) c = log_all docs (emit (Info (Received m)) c).
Proof. reflexivity. Qed.

Lemma usable_log_all docs c : usable (log_all docs c) = usable c.
Proof.
  revert c. induction docs as [|m docs IH]; intros c; [reflexivity|].
  by rewrite log_all_cons, IH.
Qed.

Lemma outbox_log_all docs c : outbox (log_all docs c) = outbox c.
Proof.
  revert c. induction docs as [|m docs IH]; intros c; [reflexivity|].
  by rewrite log_all_cons, IH.
Qed.

Lemma trace_log_all docs c :
  trace (log_all docs c) = trace c ++ ((λ m, Info (Received m)) <$> docs).
Proof.
  revert c. induction docs as [|m docs IH]; intros c.
  - cbn. by rewrite app_nil_r.
  - rewrite log_all_cons, IH. cbn. by rewrite <- app_assoc.
Qed.

Lemma received_logged docs : received ((λ m, Info (Received m)) <$> docs) = docs.
Proof. induction docs as [|m docs IH]; [reflexivity|]. cbn. by f_equal. Qed.

Lemma errors_logged docs : errors ((λ m, Info (Received m)) <$> docs) = [].
Proof. induction docs as [|m docs IH]; [reflexivity|]. exact IH. Qed.

Lemma socket_recv_run r c :
  socket_recv r c =
  if closed c || negb (connected c) then (c, Raise OSError) else recv_decode r c.
Proof.
  unfold socket_recv, Py.bind, Py.get.
  by destruct (closed c || negb (connected c)).
Qed.

Lemma receive_documents docs rest c :
  usable c = true →
  receive_messages (messages docs ++ rest) c = receive_messages rest (log_all docs c).
Proof.
  revert c. induction docs as [|m docs IH]; intros c Hc; [reflexivity|].
  change (messages (m :: docs) ++ rest)
    with (RecvText (Document m) :: (messages docs ++ rest)).
  cbn [receive_messages].
  unfold Py.bind, Py.try_except. rewrite socket_recv_run.
  unfold usable in Hc. apply negb_true_iff in Hc. rewrite Hc.
  cbn -[receive_messages]. apply IH.
  unfold usable. cbn. by rewrite Hc.
Qed.

Lemma receive_end t after c :
  usable c = true → is_message t = false →
  receive_messages (t :: after) c =
  (foldl (λ c e, emit (Error e) c) c (exit_errors t), Ok tt).
Proof.
  intros Hc Ht. cbn [receive_messages].
  unfold Py.bind, Py.try_except. rewrite socket_recv_run.
  unfold usable in Hc. apply negb_true_iff in Hc. rewrite Hc.
  destruct t as [e|[| |v]]; try discriminate; reflexivity.
Qed.

Lemma receive_messages_waiting docs c :
  usable c = true → receive_messages (messages docs) c = (log_all docs c, Blocked).
Proof.
  intros Hc. rewrite <- (app_nil_r (messages docs)), (receive_documents _ _ _ Hc).
  reflexivity.
Qed.

Lemma received_added_log_all docs c : received (added c (log_all docs c)) = docs.
Proof. unfold added. by rewrite trace_log_all, drop_app_length, received_logged. Qed.

(** X17.  On a socket that is connected and open, [receive_messages] logs
    the documents it reads, in order, and nothing else as received.  While
    documents are all it has read it waits for the next one; the first read
    that is not a document ends it, and it returns normally: without an
    error when the peer has closed, with one error logged for text that is
    not JSON or for an exception.  What comes after that read is never
    looked at, and the client sends nothing. *)
Theorem receive_messages_logs_what_it_reads docs c :
  usable c = true →
  (let out := receive_messages (messages docs) c in
   out.2 = Blocked
   ∧ received (added c out.1) = docs
   ∧ errors (added c out.1) = [])
  ∧ (∀ t after, is_message t = false →
       let out := receive_messages (messages docs ++ t :: after) c in
       out.2 = Ok tt
       ∧ received (added c out.1) = docs
       ∧ errors (added c out.1) = exit_errors t
       ∧ outbox out.1 = outbox c).
Proof.
  intros Hc. split.
  - cbv zeta. rewrite <- (app_nil_r (messages docs)), (receive_documents _ _ _ Hc).
    cbn [receive_messages Py.block fst snd]. unfold added.
    rewrite trace_log_all, drop_app_length, received_logged, errors_logged. done.
  - intros t after Ht. cbv zeta. rewrite (receive_documents _ _ _ Hc).
    rewrite receive_end by (by rewrite ?usable_log_all).
    cbn [fst snd]. unfold added.
    destruct t as [e|[| |v]]; try discriminate; cbn [exit_errors foldl];
      cbn [trace outbox emit]; rewrite ?outbox_log_all, trace_log_all;
      rewrite <- ?app_assoc, drop_app_length;
      unfold received, errors; rewrite ?bind_app;
      fold (received ((λ m, Info (Received m)) <$> docs));
      fold (errors ((λ m, Info (Received m)) <$> docs));
      rewrite received_logged, errors_logged; cbn; rewrite ?app_nil_r; done.
Qed.

Lemma receive_messages_logs_what_it_reads_witness :
  let c := (connect {| server_accepts := true; writable := true |}
              (new "a" "g" None None)).1 in
  let out := receive_messages (messages [JStr "hi"] ++ RecvText Empty :: []) c in
  usable c = true ∧ out.2 = Ok tt ∧ received (added c out.1) = [JStr "hi"].
Proof.
  cbv zeta.
  assert (H : usable (connect {| server_accepts := true; writable := true |}
                        (new "a" "g" None None)).1 = true) by reflexivity.
  split; [exact H|].
  destruct (proj2 (receive_messages_logs_what_it_reads [JStr "hi"] _ H)
              (RecvText Empty) [] eq_refl) as (P1 & P2 & _).
  split; [exact P1 | exact P2].
Defined.



(** X19.  After [close], nothing more leaves the client: every
    [send_message] logs an error and the socket takes nothing, and a
    [connect] returns [False]. *)
Theorem closed_client_sends_nothing net m c :
  let c1 := (close c).1 in
  (close c).2 = Ok tt
  ∧ outbox c1 = outbox c
  ∧ outbox (send_message net m c1).1 = outbox c
  ∧ errors (added c1 (send_message net m c1).1) = [SendFailed OSError]
  ∧ (connect net c1).2 = Ok false
  ∧ outbox (connect net c1).1 = outbox c.
Proof.
  cbv zeta. unfold close, Py.bind, Py.modify. cbn [fst snd].
  rewrite send_message_run, connect_run. cbn.
  split_and!; try reflexivity. unfold added. cbn.
  by rewrite <- app_assoc, drop_app_length.
Qed.

End VLANClientFacts.

(** * The client and the server together *)

(** X20.  The registration that a successful [connect] sends is one the
    server takes: a handler whose first read is that document registers the
    client's [client_id] with the handler's socket in the group [vlan_id],
    and goes on to relay. *)
Theorem registration_is_accepted_by_the_server net c client_socket docs w :
  (VLANClient.connect net c).2 = Ok true →
  ∃ doc,
    last (VLANClient.outbox (VLANClient.connect net c).1) = Some doc
    ∧ well_formed_registration (RecvText (Document doc))
        (VLANClient.client_id c) (VLANClient.vlan_id c)
    ∧ let out := run_handler client_socket (RecvText (Document doc) :: messages docs) w in
      out.2 = Blocked
      ∧ clients out.1 !! VLANClient.client_id c = Some client_socket
      ∧ VLANClient.client_id c ∈ members out.1 (VLANClient.vlan_id c).
Proof.
  intros Hok. exists (VLANClient.registration_info c).
  assert (Hreg : well_formed_registration
                   (RecvText (Document (VLANClient.registration_info c)))
                   (VLANClient.client_id c) (VLANClient.vlan_id c)).
  { eexists. split; [reflexivity|]. split.
    - apply lookup_insert_eq.
    - rewrite lookup_insert_ne by discriminate. apply lookup_singleton_eq. }
  split_and!.
  - rewrite VLANClientFacts.connect_run in Hok |- *.
    destruct (VLANClient.closed c || VLANClient.connected c); [discriminate|].
    destruct (VLANClient.server_accepts net); [|discriminate].
    destruct (VLANClient.writable net); [|discriminate].
    cbn. apply last_snoc.
  - exact Hreg.
  - cbv zeta. rewrite (run_handler_waiting _ _ _ _ _ _ Hreg). cbn [fst snd].
    split_and!.
    + reflexivity.
    + cbn. apply lookup_insert_eq.
    + change (VLANClient.client_id c
                ∈ members (registered (VLANClient.client_id c) (VLANClient.vlan_id c)
                             client_socket w) (VLANClient.vlan_id c)).
      rewrite elem_of_members_registered. by right.
Qed.

Lemma registration_is_accepted_by_the_server_witness :
  let net := {| VLANClient.server_accepts := true; VLANClient.writable := true |} in
  let c := VLANClient.new "a" "g" None None in
  (VLANClient.connect net c).2 = Ok true ∧
  ∃ doc, last (VLANClient.outbox (VLANClient.connect net c).1) = Some doc
         ∧ clients (run_handler 7%nat [RecvText (Document doc)] init).1 !! "a"
           = Some 7%nat.
Proof.
  cbv zeta.
  assert (H : (VLANClient.connect
                 {| VLANClient.server_accepts := true; VLANClient.writable := true |}
                 (VLANClient.new "a" "g" None None)).2 = Ok true) by reflexivity.
  split; [exact H|].
  destruct (registration_is_accepted_by_the_server _ _ 7%nat [] init H)
    as (doc & Hlast & _ & P).
  exists doc. split; [exact Hlast|]. cbv zeta in P. tauto.
Defined.

Lemma elem_of_written_to w s evs p :
  s ∉ closed w ∪ unreachable w →
  p ∈ written_to w s evs ↔ ∃ c, EvSend c s p ∈ evs.
Proof.
  intros Hs. unfold written_to. rewrite bool_decide_false by done.
  rewrite list_elem_of_bind. split.
  - intros (e & Hin & He).
    destruct e as [| |c s' p'| | |]; try (by apply not_elem_of_nil in Hin).
    case_bool_decide; [|by apply not_elem_of_nil in Hin].
    apply list_elem_of_singleton in Hin. subst. eauto.
  - intros (c & Hin). exists (EvSend c s p). split; [|done].
    rewrite bool_decide_true by done. apply list_elem_of_here.
Qed.

(** X21.  From one client to another, and what it hangs on.  A new client
    connects and sends a message: its socket takes two documents, the
    registration and the message.  Neither side frames its documents, so
    what the handler's [recv] calls return is for the transport to say.
    If every read of the handler returns one of the two documents, and
    another identifier of the same group is registered with a socket [s]
    that is open and reachable, the message is among the documents that
    went out on [s], and a client whose reads return those documents one
    by one logs exactly them as received.  If the first read returns the
    two documents run together, which is text that is not a JSON document,
    the handler registers nothing, writes to no one, and ends with
    [UnboundLocalError] without closing its socket. *)
Theorem message_relay_depends_on_framing
    net cid gid host port m handler_socket t after w other s receiver :
  VLANClient.server_accepts net = true → VLANClient.writable net = true →
  is_message t = false →
  other ≠ cid → clients w !! other = Some s → other ∈ members w gid →
  s ∉ closed w ∪ unreachable w →
  VLANClient.usable receiver = true →
  let sender := VLANClient.new cid gid host port in
  let sent := VLANClient.outbox
                (VLANClient.send_message net m (VLANClient.connect net sender).1).1 in
  sent = [VLANClient.registration_info sender; m]
  ∧ (∀ inbox, inbox = messages sent ++ t :: after →
       let wire := written_to w s (new_events w (run_handler handler_socket inbox w).1) in
       m ∈ wire
       ∧ ∀ reads, reads = messages wire →
           VLANClient.received
             (VLANClient.added receiver
                (VLANClient.receive_messages reads receiver).1) = wire)
  ∧ (∀ inbox rest, inbox = RecvText NotJson :: rest →
       let srv := run_handler handler_socket inbox w in
       srv.2 = Raise UnboundLocalError
       ∧ clients srv.1 = clients w
       ∧ vlans srv.1 = vlans w
       ∧ attempts (new_events w srv.1) = []
       ∧ closed srv.1 = closed w).
Proof.
  intros Hacc Hwr Ht Hne Hs Hmem Hopen Hrecv. cbv zeta.
  assert (Hsent : VLANClient.outbox
            (VLANClient.send_message net m
               (VLANClient.connect net (VLANClient.new cid gid host port)).1).1
          = [VLANClient.registration_info (VLANClient.new cid gid host port); m]).
  { rewrite VLANClientFacts.send_message_run, VLANClientFacts.connect_run.
    cbn -[VLANClient.registration_info]. rewrite Hacc, Hwr.
    cbn -[VLANClient.registration_info]. reflexivity. }
  rewrite Hsent. split_and!.
  - reflexivity.
  - intros inbox ->. split.
    + assert (Hreg : well_formed_registration
               (RecvText (Document
                  (VLANClient.registration_info (VLANClient.new cid gid host port))))
               cid gid).
      { eexists. split; [reflexivity|]. split.
        - apply lookup_insert_eq.
        - rewrite lookup_insert_ne by discriminate. apply lookup_singleton_eq. }
      change (messages [VLANClient.registration_info (VLANClient.new cid gid host port); m]
                ++ t :: after)
        with (RecvText (Document
                (VLANClient.registration_info (VLANClient.new cid gid host port)))
                :: messages [m] ++ t :: after).
      rewrite (run_handler_session _ _ cid gid _ _ _ _ Hreg Ht). cbn [fst].
      rewrite new_events_session. apply elem_of_written_to; [exact Hopen|]. exists other.
      rewrite !elem_of_app. right. left. left.
      rewrite bind_singleton. apply elem_of_broadcast_events.
      exists other, s. split_and!.
      * rewrite elem_of_members_registered. by left.
      * exact Hne.
      * cbn. by rewrite lookup_insert_ne.
      * by left.
    + intros reads ->.
      rewrite (VLANClientFacts.receive_messages_waiting _ _ Hrecv). cbn [fst].
      apply VLANClientFacts.received_added_log_all.
  - intros inbox rest ->.
    destruct (run_handler_rejected handler_socket (RecvText NotJson) rest w) as (e & ->).
    { intros c g (x & Hx & _). discriminate. }
    cbn [fst snd]. split_and!; try reflexivity.
    by rewrite new_events_emit.
Qed.

Lemma message_relay_depends_on_framing_witness :
  let net := {| VLANClient.server_accepts := true; VLANClient.writable := true |} in
  let w := (register_client "b" "g" 1%nat init).1 in
  let sent := VLANClient.outbox
                (VLANClient.send_message net (JStr "hi")
                   (VLANClient.connect net (VLANClient.new "a" "g" None None)).1).1 in
  let srv := run_handler 2%nat (messages sent ++ RecvText Empty :: []) w in
  clients w !! "b" = Some 1%nat ∧ "b" ∈ members w "g" ∧
  (1%nat ∉ closed w ∪ unreachable w) ∧
  JStr "hi" ∈ written_to w 1%nat (new_events w srv.1).
Proof.
  cbv zeta. rewrite (register_client_run "b"). cbn [fst].
  assert (H1 : clients (registered "b" "g" 1%nat init) !! "b" = Some 1%nat).
  { cbn. apply lookup_insert_eq. }
  assert (H2 : "b" ∈ members (registered "b" "g" 1%nat init) "g").
  { rewrite elem_of_members_registered. by right. }
  assert (H3 : 1%nat ∉ closed (registered "b" "g" 1%nat init)
                       ∪ unreachable (registered "b" "g" 1%nat init)).
  { cbn. set_solver. }
  split; [exact H1|]. split; [exact H2|]. split; [exact H3|].
  pose proof (message_relay_depends_on_framing
                {| VLANClient.server_accepts := true; VLANClient.writable := true |}
                "a" "g" None None (JStr "hi") 2%nat (RecvText Empty) [] _ "b" 1%nat
                (VLANClient.connect
                   {| VLANClient.server_accepts := true; VLANClient.writable := true |}
                   (VLANClient.new "b" "g" None None)).1
                eq_refl eq_refl eq_refl ltac:(discriminate) H1 H2 H3 eq_refl) as P.
  cbv zeta in P. destruct P as (_ & P & _).
  exact (proj1 (P _ eq_refl)).
Defined.

(** * Properties of the countdown *)

Module HelloFacts.
Import Hello.

Lemma ticks_S n : ticks (S n) = tick (S n) ++ ticks n.
Proof.
  unfold ticks. rewrite seq_S, reverse_snoc, bind_cons. reflexivity.
Qed.

Lemma ticks_ends_at_one n : ∃ front, ticks (S n) = front ++ tick 1.
Proof.
  unfold ticks. cbn [seq]. rewrite reverse_cons, bind_app, bind_singleton.
  by eexists.
Qed.

Lemma slept_app o1 o2 : slept (o1 ++ o2) = slept o1 + slept o2.
Proof.
  unfold slept. induction o1 as [|e o1 IH]; [reflexivity|].
  cbn [app foldr]. rewrite IH. destruct e; lia.
Qed.

Lemma slept_ticks n : slept (ticks n) = Z.of_nat n.
Proof.
  induction n as [|n IH]; [reflexivity|].
  rewrite ticks_S, slept_app, IH. unfold slept, tick. cbn -[Z.of_nat Z.add timer]. lia.
Qed.

Lemma length_ticks n : length (ticks n) = (2 * n)%nat.
Proof.
  induction n as [|n IH]; [reflexivity|].
  rewrite ticks_S, length_app, IH. cbn. lia.
Qed.

(** The loop, given turns enough, adds the ticks from the start value down
    to one. *)
Lemma Countdown_loop_run n fuel out :
  (n ≤ fuel)%nat → Countdown_loop fuel (Z.of_nat n) out = Some (out ++ ticks n).
Proof.
  revert fuel out. induction n as [|n IH]; intros fuel out Hfuel.
  - destruct fuel; cbn; by rewrite app_nil_r.
  - destruct fuel as [|fuel]; [lia|].
    cbn [Countdown_loop].
    assert (Hnz : (Z.of_nat (S n) =? 0) = false) by (apply Z.eqb_neq; lia).
    rewrite Hnz.
    replace (Z.of_nat (S n) - 1) with (Z.of_nat n) by lia.
    rewrite IH by lia. rewrite ticks_S, app_assoc. reflexivity.
Qed.

(** From a negative value the loop test never fails. *)
Lemma Countdown_loop_negative fuel seconds out :
  seconds < 0 → Countdown_loop fuel seconds out = None.
Proof.
  revert seconds out. induction fuel as [|fuel IH]; intros seconds out Hneg;
    cbn [Countdown_loop];
    (assert (Hnz : (seconds =? 0) = false) by (apply Z.eqb_neq; lia));
    rewrite Hnz; [reflexivity|].
  apply IH. lia.
Qed.

(** X22.  For [minutes >= 0], [Countdown] ends after [60 * minutes] turns
    of its loop: it writes the time left and sleeps one second for every
    second from [60 * minutes] down to 1, in that order, and then writes
    the closing line; the sleeps add up to [60 * minutes] seconds.  With
    [minutes = 0] the closing line is all it writes. *)
Theorem Countdown_counts_every_second fuel minutes :
  0 ≤ minutes → (Z.to_nat (minutes * 60) ≤ fuel)%nat →
  let total := Z.to_nat (minutes * 60) in
  Countdown fuel minutes = Some (ticks total ++ [Write ("Time is up!" +:+ lf)])
  ∧ slept (ticks total ++ [Write ("Time is up!" +:+ lf)]) = minutes * 60
  ∧ length (ticks total) = (2 * total)%nat
  ∧ (minutes = 0 → Countdown fuel minutes = Some [Write ("Time is up!" +:+ lf)]).
Proof.
  intros Hmin Hfuel. cbv zeta.
  assert (Hrun : Countdown fuel minutes
                 = Some (ticks (Z.to_nat (minutes * 60)) ++ [Write ("Time is up!" +:+ lf)])).
  { unfold Countdown.
    replace (minutes * 60) with (Z.of_nat (Z.to_nat (minutes * 60))) at 1 by lia.
    by rewrite (Countdown_loop_run _ _ _ Hfuel). }
  split_and!.
  - exact Hrun.
  - rewrite slept_app, slept_ticks. unfold slept. cbn -[Z.of_nat Z.mul]. lia.
  - apply length_ticks.
  - intros ->. rewrite Hrun. reflexivity.
Qed.

Lemma Countdown_counts_every_second_witness :
  0 ≤ 1 ∧ (Z.to_nat (1 * 60) ≤ 60)%nat ∧
  slept (ticks (Z.to_nat (1 * 60)) ++ [Write ("Time is up!" +:+ lf)]) = 1 * 60.
Proof.
  assert (H1 : 0 ≤ 1) by lia.
  assert (H2 : (Z.to_nat (1 * 60) ≤ 60)%nat) by (cbn; lia).
  split; [exact H1|]. split; [exact H2|].
  pose proof (Countdown_counts_every_second 60 1 H1 H2) as P.
  cbv zeta in P. tauto.
Defined.

(** X23.  For negative [minutes] the loop of [Countdown] never ends:
    [seconds] starts below zero and only goes down, so no number of turns
    brings the call to its closing line. *)
Theorem Countdown_of_a_negative_time_never_ends fuel minutes :
  minutes < 0 → Countdown fuel minutes = None.
Proof.
  intros Hneg. unfold Countdown.
  rewrite Countdown_loop_negative by lia. reflexivity.
Qed.

Lemma Countdown_of_a_negative_time_never_ends_witness :
  -1 < 0 ∧ Countdown 1000 (-1) = None.
Proof.
  assert (H : -1 < 0) by lia.
  split; [exact H|].
  exact (Countdown_of_a_negative_time_never_ends 1000 (-1) H).
Defined.

Lemma append_assoc (a b c : string) : (a +:+ b) +:+ c = a +:+ (b +:+ c).
Proof.
  induction a as [|x a IH]; [reflexivity|].
  change (String x ((a +:+ b) +:+ c) = String x (a +:+ (b +:+ c))).
  by rewrite IH.
Qed.

Lemma timer_whole_minutes minutes :
  timer (minutes * 60) = format_02d minutes +:+ ":00".
Proof.
  unfold timer. rewrite Z.div_mul, Z.mod_mul by lia. reflexivity.
Qed.

(** X24.  For [minutes > 0] the first thing [Countdown] shows is
    [minutes] in two digits or more followed by ":00", and the last time it
    shows before the closing line is "00:01": the display never reaches
    "00:00". *)
Theorem Countdown_shows_from_the_start_down_to_one fuel minutes :
  0 < minutes → (Z.to_nat (minutes * 60) ≤ fuel)%nat →
  ∃ middle,
    Countdown fuel minutes =
    Some ([Write (format_02d minutes +:+ ":00" +:+ cr); Sleep 1]
            ++ middle
            ++ [Write ("00:01" +:+ cr); Sleep 1; Write ("Time is up!" +:+ lf)]).
Proof.
  intros Hmin Hfuel. unfold Countdown.
  assert (Hloop : Countdown_loop fuel (minutes * 60) []
                  = Some (ticks (Z.to_nat (minutes * 60)))).
  { rewrite <- (Z2Nat.id (minutes * 60)) at 1 by lia.
    by rewrite (Countdown_loop_run _ _ _ Hfuel). }
  rewrite Hloop. clear Hloop.
  destruct (Z.to_nat (minutes * 60)) as [|[|n]] eqn:Htotal; [lia..|].
  rewrite ticks_S. destruct (ticks_ends_at_one n) as [front ->].
  exists front. unfold tick at 1.
  replace (Z.of_nat (S (S n))) with (minutes * 60) by lia.
  rewrite timer_whole_minutes. cbn [app].
  rewrite <- !app_assoc. do 3 f_equal.
  apply append_assoc.
Qed.

Lemma Countdown_shows_from_the_start_down_to_one_witness :
  0 < 1 ∧ (Z.to_nat (1 * 60) ≤ 60)%nat ∧
  ∃ middle,
    Countdown 60 1 =
    Some ([Write (format_02d 1 +:+ ":00" +:+ cr); Sleep 1]
            ++ middle
            ++ [Write ("00:01" +:+ cr); Sleep 1; Write ("Time is up!" +:+ lf)]).
Proof.
  assert (H1 : 0 < 1) by lia.
  assert (H2 : (Z.to_nat (1 * 60) ≤ 60)%nat) by (cbn; lia).
  split; [exact H1|]. split; [exact H2|].
  exact (Countdown_shows_from_the_start_down_to_one 60 1 H1 H2).
Defined.

Lemma length_append (a b : string) :
  String.length (a +:+ b) = (String.length a + String.length b)%nat.
Proof.
  induction a as [|x a IH]; [reflexivity|].
  change (S (String.length (a +:+ b)) = S (String.length a + String.length b)).
  by rewrite IH.
Qed.

Lemma format_02d_two_characters n :
  0 ≤ n < 100 → String.length (format_02d n) = 2%nat.
Proof.
  intros Hn.
  assert (Hall : forallb (λ k, String.length (format_02d (Z.of_nat k)) =? 2)%nat
                   (seq 0 100) = true) by (vm_compute; reflexivity).
  rewrite forallb_forall in Hall.
  specialize (Hall (Z.to_nat n)). rewrite Z2Nat.id in Hall by lia.
  apply Nat.eqb_eq, Hall, in_seq. lia.
Qed.

(** X25.  While less than a hundred minutes are left, every time the
    countdown shows has exactly five characters, two digits on each side of
    the colon, so that each line covers the one before it after the
    carriage return; at a hundred minutes the text is six characters
    long. *)
Theorem timer_has_five_characters seconds :
  0 ≤ seconds < 6000 →
  String.length (timer seconds) = 5%nat
  ∧ String.length (timer seconds +:+ cr) = 6%nat
  ∧ String.length (timer 6000) = 6%nat.
Proof.
  intros Hs.
  assert (H5 : String.length (timer seconds) = 5%nat).
  { unfold timer. rewrite !length_append.
    pose proof (Z.mod_pos_bound seconds 60 ltac:(lia)) as Hmod.
    assert (Hdiv : 0 ≤ seconds `div` 60 < 100).
    { split; [apply Z.div_pos; lia | apply Z.div_lt_upper_bound; lia]. }
    rewrite !format_02d_two_characters by lia. reflexivity. }
  split_and!; [exact H5 | by rewrite length_append, H5 | by vm_compute].
Qed.

Lemma timer_has_five_characters_witness :
  0 ≤ 59 < 6000 ∧ String.length (timer 59) = 5%nat.
Proof.
  assert (H : 0 ≤ 59 < 6000) by lia.
  split; [exact H|].
  exact (proj1 (timer_has_five_characters 59 H)).
Defined.

(** X26.  The script counts down, for ten minutes, only when the answer
    is exactly "Y" or "y".  Any other answer, the empty one included
    although the prompt writes the Y in capitals, makes it write the
    closing notice and end without a single sleep. *)
Theorem main_counts_down_only_on_yes fuel answer :
  (600 ≤ fuel)%nat →
  ∃ out,
    main fuel answer = Some out
    ∧ slept out = (if bool_decide (answer = "Y" ∨ answer = "y") then 600 else 0)
    ∧ (answer ≠ "Y" → answer ≠ "y" →
         out = [Write "环境配置开始倒计时吗? : Y/n"; Write ("程序结束" +:+ lf)]).
Proof.
  intros Hfuel. unfold main.
  destruct (decide (answer = "Y" ∨ answer = "y")) as [Hyes|Hno].
  - assert (Hb : bool_decide (answer = "Y") || bool_decide (answer = "y") = true).
    { destruct Hyes as [->| ->]; [reflexivity|].
      rewrite (bool_decide_true ("y" = "y")) by done. apply orb_true_r. }
    rewrite Hb, (bool_decide_true _ Hyes).
    unfold Countdown, wait_time. change (10 * 60) with (Z.of_nat 600).
    rewrite (Countdown_loop_run 600 fuel [] Hfuel).
    eexists. split; [reflexivity|]. split.
    + rewrite !slept_app, slept_ticks. reflexivity.
    + intros H1 H2. destruct Hyes; contradiction.
  - assert (Hb : bool_decide (answer = "Y") || bool_decide (answer = "y") = false).
    { apply orb_false_iff. split; apply bool_decide_eq_false; tauto. }
    rewrite Hb, (bool_decide_false _ Hno).
    eexists. split; [reflexivity|]. split; [reflexivity|]. done.
Qed.

Lemma main_counts_down_only_on_yes_witness :
  (600 ≤ 600)%nat ∧
  main 600 "" = Some [Write "环境配置开始倒计时吗? : Y/n"; Write ("程序结束" +:+ lf)].
Proof.
  assert (H : (600 ≤ 600)%nat) by lia.
  split; [exact H|].
  destruct (main_counts_down_only_on_yes 600 "" H) as (out & Hrun & _ & Hout).
  rewrite Hrun. f_equal. apply Hout; discriminate.
Defined.

End HelloFacts.
